(** * A client-side URL shortener: model of [App.tsx] and [loggingMiddleware.ts]

    The page keeps a list of short-URL records in React state, generates
    six-character codes with [Math.random], and records every operation in a
    module-level log array.  The development below embeds the event handlers
    as functions on an explicit world state and proves the properties the
    specification states about them. *)

From Stdlib Require Import QArith Qround.
From Stdlib Require Import String Ascii.
From stdpp Require Import gmap list.

#[local] Open Scope Z_scope.

(** ** Platform primitives *)

Module JS.

(** A JavaScript string is a sequence of UTF-16 code units. *)
Abbreviation jsstring := (list N).

(** The code units of an ASCII literal of the source. *)
Definition utf16 (s : string) : jsstring :=
  N_of_ascii <$> list_ascii_of_string s.

(** [s.length], as the number it is in the source. *)
Definition length_of (s : jsstring) : Z := Z.of_nat (length s).

(** [s.charAt(pos)]: the one-unit string at [pos], the empty string when
    [pos] is out of range. *)
Definition charAt (s : jsstring) (pos : Z) : jsstring :=
  if (0 <=? pos) && (pos <? length_of s)
  then match s !! Z.to_nat pos with
       | Some c => [c]
       | None => []
       end
  else [].

(** [Math.floor] on a number; numbers are taken as exact rationals. *)
Definition Math_floor (x : Q) : Z := Qfloor x.

(** WhiteSpace and LineTerminator code units of ECMAScript, the ones
    [trim] and [parseInt] strip. *)
Definition is_whitespace (c : N) : bool :=
  ((c =? 0x9) || (c =? 0xA) || (c =? 0xB) || (c =? 0xC) || (c =? 0xD)
   || (c =? 0x20) || (c =? 0xA0) || (c =? 0x1680)
   || ((0x2000 <=? c) && (c <=? 0x200A))
   || (c =? 0x2028) || (c =? 0x2029) || (c =? 0x202F) || (c =? 0x205F)
   || (c =? 0x3000) || (c =? 0xFEFF))%N.

Fixpoint trimStart (s : jsstring) : jsstring :=
  match s with
  | c :: rest => if is_whitespace c then trimStart rest else s
  | [] => []
  end.

Definition trimEnd (s : jsstring) : jsstring := rev (trimStart (rev s)).

(** [s.trim()]. *)
Definition trim (s : jsstring) : jsstring := trimEnd (trimStart s).

(** Truthiness of a string: every string but the empty one. *)
Definition truthy (s : jsstring) : bool :=
  match s with
  | [] => false
  | _ :: _ => true
  end.

Definition is_digit (c : N) : bool := ((0x30 <=? c) && (c <=? 0x39))%N.

(** The longest prefix of decimal digits. *)
Fixpoint digit_prefix (s : jsstring) : jsstring :=
  match s with
  | c :: rest => if is_digit c then c :: digit_prefix rest else []
  | [] => []
  end.

Definition digits_value (ds : jsstring) : Z :=
  foldl (fun acc c => acc * 10 + (Z.of_N c - 0x30)) 0 ds.

(** [parseInt(s, 10)]: leading white space is skipped, one sign is read,
    then the longest run of decimal digits; [None] stands for [NaN].  The
    value is kept as an exact integer: it is the number of the program for
    magnitudes up to [2^53], past which the program has the nearest binary64
    value ([Binary64.parseInt64] below). *)
Definition parseInt (s : jsstring) : option Z :=
  let str := trimStart s in
  let '(sign, str) :=
    match str with
    | c :: rest =>
        if (c =? 0x2D)%N then (-1, rest)
        else if (c =? 0x2B)%N then (1, rest)
        else (1, str)
    | [] => (1, str)
    end in
  match digit_prefix str with
  | [] => None
  | ds => Some (sign * digits_value ds)
  end.

(** A value stored in a log context. *)
Inductive value :=
| Str (s : jsstring)
| Num (n : Z).

End JS.

Import JS.

(** ** Numbers

    The handlers below compute with exact integers.  The numbers of the
    program are binary64 values; on integers they are the following, and
    [Binary64.round] leaves every integer of magnitude up to [2^53] as it
    is, so that the exact results are the ones of the program as long as
    every number involved stays in that range. *)

Module Binary64.

(** The values an integer computation can produce. *)
Inductive number :=
| Finite (z : Z)
| PlusInfinity
| MinusInfinity
| NaN.

(** The nearest multiple of the unit in the last place, a tie going to the
    even one; [a] is not negative. *)
Definition round_magnitude (a : Z) : Z :=
  let e := Z.log2 a - 52 in
  if e <=? 0 then a
  else
    let q := a / 2 ^ e in
    let r := a mod 2 ^ e in
    let half := 2 ^ (e - 1) in
    if r <? half then q * 2 ^ e
    else if half <? r then (q + 1) * 2 ^ e
    else if Z.even q then q * 2 ^ e
    else (q + 1) * 2 ^ e.

(** The binary64 value nearest to an integer. *)
Definition round (x : Z) : number :=
  let m := round_magnitude (Z.abs x) in
  if 2 ^ 1024 <=? m
  then (if x <? 0 then MinusInfinity else PlusInfinity)
  else Finite (Z.sgn x * m).

Definition mul (a b : number) : number :=
  match a, b with
  | NaN, _ | _, NaN => NaN
  | Finite x, Finite y => round (x * y)
  | Finite x, PlusInfinity | PlusInfinity, Finite x =>
      if x =? 0 then NaN else if x <? 0 then MinusInfinity else PlusInfinity
  | Finite x, MinusInfinity | MinusInfinity, Finite x =>
      if x =? 0 then NaN else if x <? 0 then PlusInfinity else MinusInfinity
  | PlusInfinity, PlusInfinity | MinusInfinity, MinusInfinity => PlusInfinity
  | PlusInfinity, MinusInfinity | MinusInfinity, PlusInfinity => MinusInfinity
  end.

Definition add (a b : number) : number :=
  match a, b with
  | NaN, _ | _, NaN => NaN
  | Finite x, Finite y => round (x + y)
  | PlusInfinity, MinusInfinity | MinusInfinity, PlusInfinity => NaN
  | PlusInfinity, _ | _, PlusInfinity => PlusInfinity
  | MinusInfinity, _ | _, MinusInfinity => MinusInfinity
  end.

(** [parseInt(s, 10)] as a number: the value nearest to the integer the
    digits denote. *)
Definition parseInt64 (s : jsstring) : number :=
  match parseInt s with
  | Some z => round z
  | None => NaN
  end.

(** [validity ? parseInt(validity, 10) : 30]. *)
Definition validityMinutes64 (validity : jsstring) : number :=
  if truthy validity then parseInt64 validity else Finite 30.

(** [now + validityMinutes * 60 * 1000]. *)
Definition expiry (now : Z) (minutes : number) : number :=
  add (Finite now) (mul (mul minutes (Finite 60)) (Finite 1000)).

End Binary64.

(** ** [generateShortCode] *)

Module Generator.
Section Generator.

(** The stream of results of successive [Math.random()] calls; the
    position of the next call is threaded through as a cursor. *)
Variable Math_random : nat -> Q.

Definition chars : jsstring :=
  utf16 "abcdefghijklmnopqrstuvwxyzABCDEFGHIJKLMNOPQRSTUVWXYZ0123456789".

(** The [for] loop: [n] iterations left, each appending one [charAt].  The
    product of the draw and the length is taken exactly; the binary64
    product of a draw just below a multiple of [1/62] can land on the next
    index, and stays within the alphabet all the same. *)
Fixpoint for_loop (n : nat) (code : jsstring) (cur : nat) : jsstring * nat :=
  match n with
  | O => (code, cur)
  | S n' =>
      for_loop n'
        (code ++ charAt chars
                   (Math_floor (Math_random cur * inject_Z (length_of chars))))
        (S cur)
  end.

(** The [do ... while (existing.has(code))] loop; [fuel] bounds the number
    of attempts, [None] means the bound was reached. *)
Fixpoint generateShortCode (fuel : nat) (existing : gset jsstring) (cur : nat)
  : option (jsstring * nat) :=
  match fuel with
  | O => None
  | S fuel' =>
      let '(code, cur') := for_loop 6 [] cur in
      if decide (code ∈ existing)
      then generateShortCode fuel' existing cur'
      else Some (code, cur')
  end.

(** The code spelled by the [k]-th attempt of a call started at [cur]. *)
Definition attempt (cur k : nat) : jsstring :=
  (for_loop 6 [] (cur + 6 * k)%nat).1.

End Generator.
End Generator.

Import Generator.

(** ** [loggingMiddleware.ts] *)

Module loggingMiddleware.

Record LogEntry := {
  timestamp : jsstring;
  message : jsstring;
  context : option (list (string * value));
}.

(** Arrays of log entries live in a store and are handed around by
    reference. *)
Definition ref := positive.
Abbreviation store := (gmap ref (list LogEntry)).

(** [const logs: LogEntry[] = []], the array of the module. *)
Definition logs : ref := 1%positive.

Definition init : store := {[ logs := [] ]}.

(** The contents of the array behind a reference. *)
Definition deref (σ : store) (r : ref) : list LogEntry := default [] (σ !! r).

(** [log(message, context)]: [logs.push] of an entry stamped [iso], the
    result of [new Date().toISOString()] at the call. *)
Definition log (iso : jsstring) (msg : jsstring)
    (ctx : option (list (string * value))) (σ : store) : store :=
  <[ logs := deref σ logs
             ++ [ {| timestamp := iso; message := msg; context := ctx |} ] ]> σ.

(** [getLogs()]: the spread [[...logs]] allocates a new array. *)
Definition getLogs (σ : store) : ref * store :=
  let r := fresh ({[ logs ]} ∪ dom σ) in
  (r, <[ r := deref σ logs ]> σ).

(** Any in-place mutation ([push], [pop], [splice], an indexed write, ...)
    a caller performs on the array behind [r]. *)
Definition mutate (f : list LogEntry -> list LogEntry) (r : ref) (σ : store)
  : store :=
  alter f r σ.

End loggingMiddleware.

Import loggingMiddleware.

(** ** [App.tsx] *)

Module App.

Record ShortUrl := {
  shortCode : jsstring;
  originalUrl : jsstring;
  createdAt : Z;
  expiresAt : Z;
  clickCount : Z;
}.

(** The [useState] cells of the component. *)
Record State := {
  longUrl : jsstring;
  validity : jsstring;
  shortUrls : list ShortUrl;
  copied : option jsstring;
  redirectCode : jsstring;
  redirectResult : option jsstring;
  showLogs : bool;
}.

(** The component state together with what the handlers reach outside it:
    the log store, the position in the [Math.random] stream and the
    clipboard. *)
Record World := {
  ui : State;
  logStore : store;
  randomPos : nat;
  clipboard : option jsstring;
}.

Definition initial : World :=
  {| ui := {| longUrl := []; validity := []; shortUrls := [];
              copied := None; redirectCode := []; redirectResult := None;
              showLogs := false |};
     logStore := init;
     randomPos := 0%nat;
     clipboard := None |}.

Definition with_ui (w : World) (s : State) : World :=
  {| ui := s; logStore := logStore w; randomPos := randomPos w;
     clipboard := clipboard w |}.

(** A call of [log] from a handler. *)
Definition logged (iso msg : jsstring) (ctx : list (string * value))
    (w : World) : World :=
  {| ui := ui w; logStore := log iso msg (Some ctx) (logStore w);
     randomPos := randomPos w; clipboard := clipboard w |}.

Definition the_logs (w : World) : list LogEntry := deref (logStore w) logs.

Definition entry (iso msg : jsstring) (ctx : list (string * value)) : LogEntry :=
  {| timestamp := iso; message := msg; context := Some ctx |}.

(** The outcome of a refused operation: the handler returns, the component
    state is the one before, and the log has grown by the entry [e]. *)
Definition refused_with (e : LogEntry) (w : World) (r : option World) : Prop :=
  exists w', r = Some w' /\ ui w' = ui w /\ the_logs w' = the_logs w ++ [e].

Definition incr_clickCount (u : ShortUrl) : ShortUrl :=
  {| shortCode := shortCode u; originalUrl := originalUrl u;
     createdAt := createdAt u; expiresAt := expiresAt u;
     clickCount := clickCount u + 1 |}.

Definition existingCodes (l : list ShortUrl) : gset jsstring :=
  list_to_set (shortCode <$> l).

(** What the page finds behind [navigator.clipboard] at a click: no object
    at all (a page that is not in a secure context), an object whose
    [writeText] returns a promise that is rejected, or one whose write goes
    through. *)
Inductive Clipboard :=
| ClipboardMissing
| ClipboardDenies
| ClipboardWrites.

(** The codes of the collection, slot by slot. *)
Definition codes (w : World) : list jsstring := shortCode <$> shortUrls (ui w).

(** [part] occurs in [msg]. *)
Definition contains (msg part : jsstring) : Prop :=
  exists before after, msg = before ++ part ++ after.

(** The record [find] returns for [code]: the one in slot [i], no earlier
    slot holding a record with that code. *)
Definition first_match (l : list ShortUrl) (code : jsstring) (i : nat)
    (u : ShortUrl) : Prop :=
  l !! i = Some u /\ shortCode u = code
  /\ forall j y, l !! j = Some y -> (j < i)%nat -> shortCode y <> code.

Section Handlers.

(** [Math.random], as in [Generator]. *)
Variable Math_random : nat -> Q.

(** [new URL(text).toString()]: the serialisation of the parsed URL,
    [None] when the constructor throws. *)
Variable URL : jsstring -> option jsstring.

(** [window.location.origin]. *)
Variable origin : jsstring.

(** [validity ? parseInt(validity, 10) : 30]. *)
Definition validityMinutes (validity : jsstring) : option Z :=
  if truthy validity then parseInt validity else Some 30.

(** [handleShorten]; [now] is the value of [Date.now()], [iso] the time
    stamp [log] takes, [fuel] bounds the attempts of the generator.  The
    expiry is computed on exact integers; it is [Binary64.expiry], the number
    of the program, whenever the clock is not negative and the sum does not
    exceed [2^53]. *)
Definition handleShorten (fuel : nat) (now : Z) (iso : jsstring) (w : World)
  : option World :=
  let s := ui w in
  if negb (truthy (trim (longUrl s))) then
    Some (logged iso (utf16 "Attempted to shorten empty URL")
            [("longUrl"%string, Str (longUrl s))] w)
  else
    match URL (longUrl s) with
    | None =>
        Some (logged iso (utf16 "Invalid URL entered")
                [("longUrl"%string, Str (longUrl s))] w)
    | Some url =>
        match validityMinutes (validity s) with
        | None =>
            Some (logged iso (utf16 "Invalid validity entered")
                    [("validity"%string, Str (validity s))] w)
        | Some minutes =>
            if minutes <=? 0 then
              Some (logged iso (utf16 "Invalid validity entered")
                      [("validity"%string, Str (validity s))] w)
            else
              let expires := now + minutes * 60 * 1000 in
              let existing := existingCodes (shortUrls s) in
              match generateShortCode Math_random fuel existing (randomPos w) with
              | None => None
              | Some (code, pos) =>
                  let newShort :=
                    {| shortCode := code; originalUrl := url;
                       createdAt := now; expiresAt := expires;
                       clickCount := 0 |} in
                  Some (logged iso (utf16 "Shortened new URL")
                          [("shortCode"%string, Str code);
                           ("originalUrl"%string, Str url);
                           ("validityMinutes"%string, Num minutes)]
                          {| ui := {| longUrl := [];
                                      validity := [];
                                      shortUrls := newShort :: shortUrls s;
                                      copied := copied s;
                                      redirectCode := redirectCode s;
                                      redirectResult := redirectResult s;
                                      showLogs := showLogs s |};
                             logStore := logStore w;
                             randomPos := pos;
                             clipboard := clipboard w |})
              end
        end
    end.

(** [handleCopy].  Its first statement calls [writeText] on
    [navigator.clipboard]: without the object the call throws and nothing
    after it runs ([None]); with it the handler goes on to [setCopied] and
    [log], and the text reaches the clipboard when the write is granted. *)
Definition handleCopy (access : Clipboard) (code : jsstring) (iso : jsstring)
    (w : World) : option World :=
  let s := ui w in
  match access with
  | ClipboardMissing => None
  | ClipboardDenies | ClipboardWrites =>
      Some
        (logged iso (utf16 "Copied short URL") [("shortCode"%string, Str code)]
           {| ui := {| longUrl := longUrl s; validity := validity s;
                       shortUrls := shortUrls s; copied := Some code;
                       redirectCode := redirectCode s;
                       redirectResult := redirectResult s;
                       showLogs := showLogs s |};
              logStore := logStore w;
              randomPos := randomPos w;
              clipboard :=
                match access with
                | ClipboardWrites => Some (origin ++ utf16 "/s/" ++ code)
                | _ => clipboard w
                end |})
  end.

Definition set_redirectResult (r : jsstring) (s : State) : State :=
  {| longUrl := longUrl s; validity := validity s;
     shortUrls := shortUrls s; copied := copied s;
     redirectCode := redirectCode s; redirectResult := Some r;
     showLogs := showLogs s |}.

(** [handleRedirect].  [find] gives the first record with the code and
    its slot; [found.clickCount++] writes to the object in that slot,
    every slot holding an object of its own. *)
Definition handleRedirect (now : Z) (iso : jsstring) (w : World) : World :=
  let s := ui w in
  match list_find (fun u => shortCode u = redirectCode s) (shortUrls s) with
  | None =>
      logged iso (utf16 "Redirection failed: code not found")
        [("shortCode"%string, Str (redirectCode s))]
        (with_ui w (set_redirectResult (utf16 "Short URL not found.") s))
  | Some (i, found) =>
      if now >? expiresAt found then
        logged iso (utf16 "Redirection failed: code expired")
          [("shortCode"%string, Str (redirectCode s))]
          (with_ui w
             (set_redirectResult (utf16 "This short URL has expired.") s))
      else
        logged iso (utf16 "Short URL visited")
          [("shortCode"%string, Str (redirectCode s));
           ("originalUrl"%string, Str (originalUrl found))]
          (with_ui w
             {| longUrl := longUrl s; validity := validity s;
                shortUrls := alter incr_clickCount i (shortUrls s);
                copied := copied s;
                redirectCode := redirectCode s;
                redirectResult :=
                  Some (utf16 "Redirected to: " ++ originalUrl found);
                showLogs := showLogs s |})
  end.

(** What the page reacts to: edits of the three inputs, the two form
    submissions, the copy button and its timer, the log toggle. *)
Inductive Event :=
| ChangeLongUrl (v : jsstring)
| ChangeValidity (v : jsstring)
| ChangeRedirectCode (v : jsstring)
| SubmitShorten (fuel : nat) (now : Z) (iso : jsstring)
| ClickCopy (access : Clipboard) (code : jsstring) (iso : jsstring)
| CopiedTimeout
| SubmitRedirect (now : Z) (iso : jsstring)
| ToggleLogs.

Definition dispatch (e : Event) (w : World) : option World :=
  let s := ui w in
  match e with
  | ChangeLongUrl v =>
      Some (with_ui w
              {| longUrl := v; validity := validity s;
                 shortUrls := shortUrls s; copied := copied s;
                 redirectCode := redirectCode s;
                 redirectResult := redirectResult s;
                 showLogs := showLogs s |})
  | ChangeValidity v =>
      Some (with_ui w
              {| longUrl := longUrl s; validity := v;
                 shortUrls := shortUrls s; copied := copied s;
                 redirectCode := redirectCode s;
                 redirectResult := redirectResult s;
                 showLogs := showLogs s |})
  | ChangeRedirectCode v =>
      Some (with_ui w
              {| longUrl := longUrl s; validity := validity s;
                 shortUrls := shortUrls s; copied := copied s;
                 redirectCode := v;
                 redirectResult := redirectResult s;
                 showLogs := showLogs s |})
  | SubmitShorten fuel now iso => handleShorten fuel now iso w
  | ClickCopy access code iso =>
      (* a handler that throws leaves the state of the page as it was *)
      Some (default w (handleCopy access code iso w))
  | CopiedTimeout =>
      Some (with_ui w
              {| longUrl := longUrl s; validity := validity s;
                 shortUrls := shortUrls s; copied := None;
                 redirectCode := redirectCode s;
                 redirectResult := redirectResult s;
                 showLogs := showLogs s |})
  | SubmitRedirect now iso => Some (handleRedirect now iso w)
  | ToggleLogs =>
      Some (with_ui w
              {| longUrl := longUrl s; validity := validity s;
                 shortUrls := shortUrls s; copied := copied s;
                 redirectCode := redirectCode s;
                 redirectResult := redirectResult s;
                 showLogs := negb (showLogs s) |})
  end.

(** A session: the events of the page, one after the other. *)
Fixpoint run (es : list Event) (w : World) : option World :=
  match es with
  | [] => Some w
  | e :: es' =>
      match dispatch e w with
      | Some w' => run es' w'
      | None => None
      end
  end.

(** The time stamp an event leaves in the log, if it logs. *)
Definition stamp_of (e : Event) : option jsstring :=
  match e with
  | SubmitShorten _ _ iso | SubmitRedirect _ iso => Some iso
  | ClickCopy ClipboardMissing _ _ => None
  | ClickCopy _ _ iso => Some iso
  | _ => None
  end.

Definition reachable (w : World) : Prop :=
  exists es, run es initial = Some w.

End Handlers.

End App.

Import App.

(** Membership in [a-zA-Z0-9], stated on code units. *)
Definition is_alnum (c : N) : bool :=
  (((0x61 <=? c) && (c <=? 0x7A)) || ((0x41 <=? c) && (c <=? 0x5A))
   || ((0x30 <=? c) && (c <=? 0x39)))%N.

(** [Math.random] returns a number in the half-open unit interval. *)
Definition unit_interval (rnd : nat -> Q) : Prop :=
  forall i, (0 <= rnd i)%Q /\ (rnd i < 1)%Q.

(** ** Concrete inputs used in the examples *)

Module Samples.

(** A source stuck at [0]: every attempt spells [aaaaaa]. *)
Definition zeros : nat -> Q := fun _ => 0%Q.

(** Six draws of [0], then [1/62] for ever: [aaaaaa], then [bbbbbb]. *)
Definition a_then_b : nat -> Q :=
  fun i => if (i <? 6)%nat then 0%Q else (1 # 62)%Q.

(** Twelve draws of [0] before the [1/62]: the second attempt of a call
    started at position 6 is the first to leave [aaaaaa]. *)
Definition a_a_then_b : nat -> Q :=
  fun i => if (i <? 12)%nat then 0%Q else (1 # 62)%Q.

Definition aaaaaa : jsstring := utf16 "aaaaaa".
Definition bbbbbb : jsstring := utf16 "bbbbbb".

(** A stand-in for the URL parser of the platform, defined on the one
    address the examples shorten. *)
Definition example_com : jsstring := utf16 "https://example.com".

Definition sample_URL (text : jsstring) : option jsstring :=
  if decide (text = example_com) then Some (utf16 "https://example.com/")
  else None.

Definition sample_origin : jsstring := utf16 "http://localhost:3000".

Definition iso0 : jsstring := utf16 "2025-01-01T00:00:00.000Z".
Definition iso1 : jsstring := utf16 "2025-01-01T00:00:30.000Z".

(** A record created at time 1000 and valid for one minute, and the page
    holding it with [code] typed into the redirect form. *)
Definition sample_record : ShortUrl :=
  {| shortCode := aaaaaa; originalUrl := utf16 "https://example.com/";
     createdAt := 1000; expiresAt := 61000; clickCount := 4 |}.

Definition visiting (code : jsstring) : World :=
  with_ui initial
    {| longUrl := []; validity := []; shortUrls := [sample_record];
       copied := None; redirectCode := code; redirectResult := None;
       showLogs := false |}.

(** Two addresses shortened one after the other, a copy and a visit. *)
Definition two_shortens : list Event :=
  [ChangeLongUrl example_com; SubmitShorten 1 1000 iso0;
   ChangeLongUrl example_com; ChangeValidity (utf16 "5");
   SubmitShorten 2 2000 iso1].

Definition a_session : list Event :=
  two_shortens
  ++ [ClickCopy ClipboardWrites bbbbbb iso1; CopiedTimeout;
      ChangeRedirectCode aaaaaa;
      ToggleLogs; SubmitRedirect 3000 iso1].

(** The page with the given texts typed into the two inputs of the
    creation form. *)
Definition typed (url validity : jsstring) : World :=
  with_ui initial
    {| longUrl := url; validity := validity; shortUrls := [];
       copied := None; redirectCode := []; redirectResult := None;
       showLogs := false |}.

End Samples.

Import Samples.

(** ** The rendered page *)

Module View.

(** [Math.round]: the nearest integer, a tie going up. *)
Definition Math_round (x : Q) : Z := Qfloor (x + (1 # 2)).

(** The decimal digits of a natural number, most significant first, in
    front of [acc]; [fuel] bounds the number of digits after the first. *)
Fixpoint digits_of (fuel : nat) (n : Z) (acc : jsstring) : jsstring :=
  let acc' := Z.to_N (0x30 + n mod 10) :: acc in
  match fuel with
  | O => acc'
  | S fuel' => if n <? 10 then acc' else digits_of fuel' (n / 10) acc'
  end.

(** The string a template literal puts for an integer: its decimal digits
    (JavaScript writes them out for magnitudes below 10^21). *)
Definition Number_toString (n : Z) : jsstring :=
  if n <? 0
  then 0x2D%N :: digits_of (Z.to_nat (Z.log2 (- n))) (- n) []
  else digits_of (Z.to_nat (Z.log2 n)) n [].

(** One [<tr>] of the table. *)
Record Row := {
  key : jsstring;
  className : jsstring;
  shortUrlCell : jsstring;
  linkHref : jsstring;
  linkText : jsstring;
  clicksCell : Z;
  expiresCell : jsstring;
  copyLabel : jsstring;
}.

(** What the component returns, as far as it depends on the state. *)
Record Page := {
  rows : list Row;
  resultPanel : option jsstring;
  toggleLabel : jsstring;
  logItems : option (list LogEntry);
}.

(** The number in the "Expires In" cell of a record that has not expired. *)
Definition minutesLeft (now : Z) (u : ShortUrl) : Z :=
  Z.max 0 (Math_round (inject_Z (expiresAt u - now) / inject_Z 60000)).

Definition expiresIn (now : Z) (u : ShortUrl) : jsstring :=
  if now >? expiresAt u then utf16 "Expired"
  else Number_toString (minutesLeft now u) ++ utf16 " min".

Section Render.

(** [window.location.origin]. *)
Variable origin : jsstring.

Definition row (now : Z) (copied : option jsstring) (u : ShortUrl) : Row :=
  {| key := shortCode u;
     className := if now >? expiresAt u then utf16 "expired" else [];
     shortUrlCell := origin ++ utf16 "/s/" ++ shortCode u;
     linkHref := originalUrl u;
     linkText := originalUrl u;
     clicksCell := clickCount u;
     expiresCell := expiresIn now u;
     copyLabel :=
       if decide (copied = Some (shortCode u)) then utf16 "Copied!"
       else utf16 "Copy" |}.

(** The body of [App] after the hooks; [now] is the [Date.now()] of the
    render.  With the logs shown, [getLogs()] allocates its array. *)
Definition render (now : Z) (w : World) : Page * World :=
  let s := ui w in
  let table := row now (copied s) <$> shortUrls s in
  let panel :=
    match redirectResult s with
    | Some m => if truthy m then Some m else None
    | None => None
    end in
  let label := if showLogs s then utf16 "Hide Logs" else utf16 "Show Logs" in
  if showLogs s then
    let '(r, σ) := getLogs (logStore w) in
    ({| rows := table; resultPanel := panel; toggleLabel := label;
        logItems := Some (deref σ r) |},
     {| ui := s; logStore := σ; randomPos := randomPos w;
        clipboard := clipboard w |})
  else
    ({| rows := table; resultPanel := panel; toggleLabel := label;
        logItems := None |}, w).

End Render.

End View.

Import View.

(** ** Predicates on records and sessions *)

Module Props.

(** The same record but for the click counter, which has not gone down. *)
Definition same_but_clicks (u' u : ShortUrl) : Prop :=
  shortCode u' = shortCode u /\ originalUrl u' = originalUrl u
  /\ createdAt u' = createdAt u /\ expiresAt u' = expiresAt u
  /\ clickCount u <= clickCount u'.

(** The number of log entries with a given message. *)
Definition count_message (msg : jsstring) (l : list LogEntry) : nat :=
  length (filter (fun e => message e = msg) l).

(** The clicks of all records together. *)
Definition total_clicks (l : list ShortUrl) : Z :=
  foldr (fun u acc => clickCount u + acc) 0 l.

(** The position of a character in the alphabet of the generator, and the
    draws that spell a given text. *)
Definition index_of (c : N) : nat :=
  match list_find (eq c) chars with
  | Some (i, _) => i
  | None => 0%nat
  end.

Definition draws_for (code : jsstring) : nat -> Q :=
  fun j =>
    match code !! j with
    | Some c => (Z.of_nat (index_of c) # 62)%Q
    | None => 0%Q
    end.




(** What holds of every record the page creates. *)
Definition well_formed (URL : jsstring -> option jsstring) (u : ShortUrl)
  : Prop :=
  length (shortCode u) = 6%nat
  /\ forallb is_alnum (shortCode u) = true
  /\ 0 <= clickCount u
  /\ createdAt u + 60000 <= expiresAt u
  /\ (exists text, URL text = Some (originalUrl u)).

(** The stored result message, if any, is not the empty string. *)
Definition result_ok (w : World) : Prop :=
  match redirectResult (ui w) with
  | Some m => truthy m = true
  | None => True
  end.

(** [k] submissions of the redirect form, at the given times. *)
Definition visits (times : list Z) (iso : jsstring) : list Event :=
  (fun t => SubmitRedirect t iso) <$> times.

End Props.

Import Props.

(** ** Facts about the generator *)

Section GeneratorFacts.

Variable rnd : nat -> Q.

Lemma chars_alnum : forallb is_alnum chars = true.
Proof. vm_compute. reflexivity. Qed.

Lemma chars_length : length_of chars = 62.
Proof. reflexivity. Qed.

Lemma floor_index (r : Q) :
  (0 <= r)%Q -> (r < 1)%Q -> 0 <= Math_floor (r * inject_Z 62) < 62.
Proof.
  intros H0 H1. unfold Math_floor. split.
  - change 0 with (Qfloor (inject_Z 0)) at 1. rewrite Qfloor_Z.
    change 0 with (Qfloor (inject_Z 0)). apply Qfloor_resp_le.
    change (inject_Z 0) with (0 * inject_Z 62)%Q.
    apply Qmult_le_compat_r; [exact H0 | discriminate].
  - assert (Hlt : (r * inject_Z 62 < 1 * inject_Z 62)%Q)
      by (apply Qmult_lt_compat_r; [reflexivity | exact H1]).
    change (1 * inject_Z 62)%Q with (inject_Z 62) in Hlt.
    pose proof (Qfloor_le (r * inject_Z 62)) as Hf.
    rewrite Zlt_Qlt. eapply Qle_lt_trans; eauto.
Qed.

(** Inside the alphabet, [charAt] yields exactly one alphanumeric unit. *)
Lemma charAt_chars (i : Z) :
  0 <= i < 62 -> exists c, charAt chars i = [c] /\ is_alnum c = true.
Proof.
  intros Hi. unfold charAt. rewrite chars_length.
  replace ((0 <=? i) && (i <? 62)) with true
    by (symmetry; apply andb_true_iff; split; [apply Z.leb_le | apply Z.ltb_lt]; lia).
  destruct (chars !! Z.to_nat i) as [c|] eqn:Hc.
  - exists c. split; [reflexivity |].
    pose proof chars_alnum as Ha. rewrite forallb_forall in Ha.
    apply Ha. apply list_elem_of_In. eapply list_elem_of_lookup_2; eauto.
  - apply lookup_ge_None in Hc. change (length chars) with 62%nat in Hc. lia.
Qed.

(** The cursor moves by one per iteration, whatever is drawn. *)
Lemma for_loop_pos (n : nat) : forall code cur,
  (for_loop rnd n code cur).2 = (cur + n)%nat.
Proof.
  induction n as [|n IH]; intros code cur; simpl.
  - lia.
  - rewrite IH. lia.
Qed.

(** The loop only reads the draws between its two cursor positions. *)
Lemma for_loop_ext (rnd' : nat -> Q) (n : nat) : forall code cur,
  (forall i, (cur <= i < cur + n)%nat -> rnd i = rnd' i) ->
  for_loop rnd n code cur = for_loop rnd' n code cur.
Proof.
  induction n as [|n IH]; intros code cur Heq; cbn [for_loop]; [reflexivity |].
  rewrite (Heq cur) by lia. apply IH. intros i Hi. apply Heq. lia.
Qed.

Lemma for_loop_alnum (n : nat) : unit_interval rnd -> forall code cur,
  exists l, for_loop rnd n code cur = (code ++ l, (cur + n)%nat)
            /\ length l = n /\ forallb is_alnum l = true.
Proof.
  intros Hu. induction n as [|n IH]; intros code cur; cbn [for_loop].
  - exists []. rewrite app_nil_r, Nat.add_0_r. auto.
  - destruct (Hu cur) as [H0 H1].
    destruct (charAt_chars _ (floor_index _ H0 H1)) as (c & Hc & Ha).
    rewrite chars_length, Hc.
    destruct (IH (code ++ [c]) (S cur)) as (l & Hl & Hlen & Hal).
    exists (c :: l). rewrite Hl, <- app_assoc. simpl.
    rewrite Ha, Hal, Hlen. repeat split; f_equal; lia.
Qed.

(** One turn of the [do ... while] loop. *)
Lemma generate_unfold (fuel : nat) (existing : gset jsstring) (cur : nat) :
  generateShortCode rnd (S fuel) existing cur
  = if decide (attempt rnd cur 0 ∈ existing)
    then generateShortCode rnd fuel existing (cur + 6)%nat
    else Some (attempt rnd cur 0, (cur + 6)%nat).
Proof.
  unfold attempt. rewrite Nat.mul_0_r, Nat.add_0_r.
  change (generateShortCode rnd (S fuel) existing cur)
    with (let '(code, cur') := for_loop rnd 6 [] cur in
          if decide (code ∈ existing)
          then generateShortCode rnd fuel existing cur'
          else Some (code, cur')).
  pose proof (for_loop_pos 6 [] cur) as Hp.
  destruct (for_loop rnd 6 [] cur) as [code cur']. simpl in Hp. subst cur'.
  reflexivity.
Qed.

Lemma attempt_shift (cur k : nat) :
  attempt rnd (cur + 6) k = attempt rnd cur (S k).
Proof. unfold attempt. f_equal. f_equal. lia. Qed.

(** Whatever is returned was the last attempt, and it is not in the set. *)
Lemma generate_Some (fuel : nat) (existing : gset jsstring) :
  forall cur code cur',
    generateShortCode rnd fuel existing cur = Some (code, cur') ->
    exists k, (k < fuel)%nat /\ code = attempt rnd cur k
              /\ cur' = (cur + 6 * S k)%nat /\ (code ∉ existing)
              /\ (forall j, (j < k)%nat -> attempt rnd cur j ∈ existing).
Proof.
  induction fuel as [|fuel IH]; intros cur code cur' H; [discriminate |].
  rewrite generate_unfold in H.
  destruct (decide (attempt rnd cur 0 ∈ existing)) as [Hin|Hout].
  - destruct (IH _ _ _ H) as (k & Hk & -> & -> & Hfresh & Hbefore).
    exists (S k). rewrite attempt_shift in Hfresh |- *.
    split; [lia |]. split; [reflexivity |]. split; [lia |].
    split; [assumption |].
    intros [|j] Hj; [assumption |].
    rewrite <- attempt_shift. apply Hbefore. lia.
  - injection H as <- <-. exists 0%nat.
    split; [lia |]. split; [reflexivity |]. split; [lia |].
    split; [assumption |]. intros j Hj. lia.
Qed.



End GeneratorFacts.

(** ** The generator: results, termination, dependence on the draws *)

(** Closes [unit_interval] goals about the sample sources. *)
Ltac in_unit_interval :=
  let i := fresh "i" in
  intros i; unfold a_then_b, zeros; try destruct (i <? 6)%nat;
  split; reflexivity || discriminate.

Lemma attempt_length_alnum (rnd : nat -> Q) (cur k : nat) :
  unit_interval rnd ->
  length (attempt rnd cur k) = 6%nat
  /\ forallb is_alnum (attempt rnd cur k) = true.
Proof.
  intros Hu. unfold attempt.
  destruct (for_loop_alnum rnd 6 Hu [] (cur + 6 * k)%nat) as (l & -> & Hlen & Hal).
  simpl. auto.
Qed.

(** C1: every code the generator returns has length six, consists of
    characters of [a-zA-Z0-9] and is not a member of the set of existing
    codes it was given. *)
Theorem generateShortCode_sound (rnd : nat -> Q) (fuel : nat)
    (existing : gset jsstring) (cur : nat) (code : jsstring) (cur' : nat) :
  unit_interval rnd ->
  generateShortCode rnd fuel existing cur = Some (code, cur') ->
  length code = 6%nat /\ forallb is_alnum code = true /\ (code ∉ existing).
Proof.
  intros Hu H.
  destruct (generate_Some rnd fuel existing cur code cur' H)
    as (k & _ & -> & _ & Hfresh & _).
  destruct (attempt_length_alnum rnd cur k Hu) as [Hlen Hal].
  auto.
Qed.

Lemma generateShortCode_sound_witness :
  length bbbbbb = 6%nat /\ forallb is_alnum bbbbbb = true
  /\ (bbbbbb ∉ ({[ aaaaaa ]} : gset jsstring)).
Proof.
  apply (generateShortCode_sound a_then_b 2 {[ aaaaaa ]} 0 bbbbbb 12).
  - in_unit_interval.
  - vm_compute. reflexivity.
Defined.


(** C9, as stated, fails: two calls with the same (empty) set of existing
    codes, one after the other on the same source, return different codes. *)
Lemma generateShortCode_not_repeatable :
  unit_interval a_then_b
  /\ generateShortCode a_then_b 1 ∅ 0 = Some (aaaaaa, 6%nat)
  /\ generateShortCode a_then_b 1 ∅ 6 = Some (bbbbbb, 12%nat)
  /\ aaaaaa <> bbbbbb.
Proof.
  split; [in_unit_interval |].
  split; [vm_compute; reflexivity |].
  split; [vm_compute; reflexivity |].
  discriminate.
Qed.

(** C9, amended: the generator only reads the set it is given and the draws
    of the random source between the cursor it starts from and the one it
    returns; on any source with the same draws there, it returns the same
    code and the same cursor. *)
Theorem generateShortCode_draws_determine (rnd rnd' : nat -> Q) (fuel : nat)
    (existing : gset jsstring) (cur : nat) (code : jsstring) (cur' : nat) :
  generateShortCode rnd fuel existing cur = Some (code, cur') ->
  (forall i, (cur <= i < cur')%nat -> rnd i = rnd' i) ->
  generateShortCode rnd' fuel existing cur = Some (code, cur').
Proof.
  revert cur. induction fuel as [|fuel IH]; intros cur H Heq; [discriminate |].
  pose proof (generate_Some rnd _ _ _ _ _ H) as (k & _ & _ & Hcur' & _).
  assert (Ha : attempt rnd' cur 0 = attempt rnd cur 0).
  { unfold attempt. f_equal. symmetry. apply for_loop_ext.
    intros i Hi. apply Heq. lia. }
  rewrite generate_unfold in H |- *. rewrite Ha.
  destruct (decide (attempt rnd cur 0 ∈ existing)) as [Hin|Hout].
  - apply IH; [exact H |]. intros i Hi. apply Heq. lia.
  - exact H.
Qed.

Lemma generateShortCode_draws_determine_witness :
  generateShortCode zeros 2 {[ bbbbbb ]} 0 = Some (aaaaaa, 6%nat).
Proof.
  apply (generateShortCode_draws_determine a_then_b zeros 2 {[ bbbbbb ]} 0).
  - vm_compute. reflexivity.
  - intros i Hi. unfold a_then_b, zeros.
    destruct (i <? 6)%nat eqn:E; [reflexivity |].
    apply Nat.ltb_ge in E. lia.
Defined.

(** ** Strings: [trim] and [parseInt] *)

Lemma trimStart_nil (s : jsstring) :
  trimStart s = [] <-> forallb is_whitespace s = true.
Proof.
  induction s as [|c s IH]; simpl; [tauto |].
  destruct (is_whitespace c); simpl; [exact IH |].
  split; discriminate.
Qed.

Lemma trimStart_stable (s : jsstring) :
  forallb is_whitespace (trimStart s) = true -> trimStart s = [].
Proof.
  induction s as [|c s IH]; simpl; [reflexivity |].
  destruct (is_whitespace c) eqn:E; [exact IH |].
  simpl. rewrite E. discriminate.
Qed.

(** [!s.trim()] holds exactly for the empty and the white-space-only texts. *)
Lemma trim_blank (s : jsstring) :
  truthy (trim s) = false <-> forallb is_whitespace s = true.
Proof.
  assert (Hnil : forall t : jsstring, truthy t = false <-> t = [])
    by (intros [|? ?]; simpl; split; congruence).
  rewrite Hnil. unfold trim, trimEnd. split.
  - intros H. apply (f_equal (@rev N)) in H. rewrite rev_involutive in H.
    simpl in H. apply trimStart_nil in H. rewrite forallb_forall in H.
    apply trimStart_nil, trimStart_stable. apply forallb_forall.
    intros c Hc. apply H. apply in_rev. rewrite rev_involutive. exact Hc.
  - intros H. apply trimStart_nil in H. rewrite H. reflexivity.
Qed.

(** ** The log *)

Lemma the_logs_logged (iso msg : jsstring) (ctx : list (string * value))
    (w : World) :
  the_logs (logged iso msg ctx w) = the_logs w ++ [entry iso msg ctx].
Proof.
  unfold the_logs, logged, log, deref. simpl. rewrite lookup_insert_eq.
  reflexivity.
Qed.

Lemma refused_logged (iso msg : jsstring) (ctx : list (string * value))
    (w : World) :
  refused_with (entry iso msg ctx) w (Some (logged iso msg ctx w)).
Proof.
  exists (logged iso msg ctx w).
  split; [reflexivity |]. split; [reflexivity |]. apply the_logs_logged.
Qed.

(** ** [handleShorten]: refused submissions *)

Section Shorten.

Variable rnd : nat -> Q.
Variable URL : jsstring -> option jsstring.

(** C3: a submission is refused, leaving the component state and so the
    record collection as they were and adding one log entry that carries
    the offending text, when the URL text is empty or white space only;
    else when the URL text does not parse; else when the validity text is
    present and [parseInt] gives [NaN] or a value that is not positive. *)
Theorem handleShorten_refuses (fuel : nat) (now : Z) (iso : jsstring)
    (w : World) :
  let s := ui w in
  (forallb is_whitespace (longUrl s) = true ->
   refused_with
     (entry iso (utf16 "Attempted to shorten empty URL")
        [("longUrl"%string, Str (longUrl s))])
     w (handleShorten rnd URL fuel now iso w))
  /\ (forallb is_whitespace (longUrl s) = false ->
      URL (longUrl s) = None ->
      refused_with
        (entry iso (utf16 "Invalid URL entered")
           [("longUrl"%string, Str (longUrl s))])
        w (handleShorten rnd URL fuel now iso w))
  /\ (forallb is_whitespace (longUrl s) = false ->
      is_Some (URL (longUrl s)) ->
      validity s <> [] ->
      (parseInt (validity s) = None
       \/ exists v, parseInt (validity s) = Some v /\ v <= 0) ->
      refused_with
        (entry iso (utf16 "Invalid validity entered")
           [("validity"%string, Str (validity s))])
        w (handleShorten rnd URL fuel now iso w)).
Proof.
  intros s. subst s. unfold handleShorten.
  destruct (truthy (trim (longUrl (ui w)))) eqn:Ht; simpl.
  - assert (Hws : forallb is_whitespace (longUrl (ui w)) = false).
    { destruct (forallb is_whitespace (longUrl (ui w))) eqn:E; [|reflexivity].
      apply trim_blank in E. congruence. }
    split; [congruence |]. split.
    + intros _ ->. apply refused_logged.
    + intros _ [url ->] Hne Hbad. unfold validityMinutes.
      destruct (validity (ui w)) as [|c v] eqn:Hv; [congruence |].
      simpl truthy. cbv iota.
      destruct Hbad as [-> | (n & -> & Hn)]; [apply refused_logged |].
      apply Z.leb_le in Hn. rewrite Hn. apply refused_logged.
  - apply trim_blank in Ht.
    split; [intros _; apply refused_logged |].
    split; congruence.
Qed.

End Shorten.

Lemma handleShorten_refuses_witness :
  refused_with
    (entry iso0 (utf16 "Attempted to shorten empty URL")
       [("longUrl"%string, Str (utf16 "  "))])
    (typed (utf16 "  ") (utf16 "5"))
    (handleShorten zeros sample_URL 1 0 iso0 (typed (utf16 "  ") (utf16 "5")))
  /\ refused_with
       (entry iso0 (utf16 "Invalid URL entered")
          [("longUrl"%string, Str (utf16 "not a url"))])
       (typed (utf16 "not a url") (utf16 "0"))
       (handleShorten zeros sample_URL 1 0 iso0
          (typed (utf16 "not a url") (utf16 "0")))
  /\ refused_with
       (entry iso0 (utf16 "Invalid validity entered")
          [("validity"%string, Str (utf16 "-5"))])
       (typed example_com (utf16 "-5"))
       (handleShorten zeros sample_URL 1 0 iso0 (typed example_com (utf16 "-5")))
  /\ refused_with
       (entry iso0 (utf16 "Invalid validity entered")
          [("validity"%string, Str (utf16 "abc"))])
       (typed example_com (utf16 "abc"))
       (handleShorten zeros sample_URL 1 0 iso0 (typed example_com (utf16 "abc"))).
Proof.
  split; [|split; [|split]].
  - apply (handleShorten_refuses zeros sample_URL 1 0 iso0
             (typed (utf16 "  ") (utf16 "5"))).
    reflexivity.
  - apply (handleShorten_refuses zeros sample_URL 1 0 iso0
             (typed (utf16 "not a url") (utf16 "0"))); reflexivity.
  - apply (handleShorten_refuses zeros sample_URL 1 0 iso0
             (typed example_com (utf16 "-5"))).
    + reflexivity.
    + vm_compute. eauto.
    + discriminate.
    + right. exists (-5). split; [reflexivity | lia].
  - apply (handleShorten_refuses zeros sample_URL 1 0 iso0
             (typed example_com (utf16 "abc"))).
    + reflexivity.
    + vm_compute. eauto.
    + discriminate.
    + left. reflexivity.
Defined.

Example parseInt_digits : parseInt (utf16 "1") = Some 1.
Proof. reflexivity. Qed.

Example parseInt_sign : parseInt (utf16 "  -5") = Some (-5).
Proof. reflexivity. Qed.

Example parseInt_prefix : parseInt (utf16 "1e5") = Some 1.
Proof. reflexivity. Qed.

Example parseInt_NaN : parseInt (utf16 " ") = None.
Proof. reflexivity. Qed.

(** ** [handleShorten]: accepted submissions *)



(** Integers of magnitude up to [2^53] are binary64 values. *)
Lemma round_safe (x : Z) :
  Z.abs x <= 2 ^ 53 -> Binary64.round x = Binary64.Finite x.
Proof.
  intros Hx. unfold Binary64.round.
  assert (Hm : Binary64.round_magnitude (Z.abs x) = Z.abs x).
  { destruct (Z.eq_dec (Z.abs x) (2 ^ 53)) as [-> | Hne];
      [vm_compute; reflexivity |].
    unfold Binary64.round_magnitude.
    replace (Z.log2 (Z.abs x) - 52 <=? 0) with true; [reflexivity |].
    symmetry. apply Z.leb_le.
    destruct (Z.eq_dec (Z.abs x) 0) as [E | Hpos];
      [rewrite E; simpl; lia |].
    assert (Z.log2 (Z.abs x) < 53); [| lia].
    apply Z.log2_lt_pow2; lia. }
  rewrite Hm.
  assert (2 ^ 53 < 2 ^ 1024) by (apply Z.pow_lt_mono_r; lia).
  replace (2 ^ 1024 <=? Z.abs x) with false
    by (symmetry; apply Z.leb_gt; lia).
  f_equal. destruct x; reflexivity.
Qed.

Lemma expiry_safe (now v : Z) :
  0 < v -> 0 <= now -> now + v * 60000 <= 2 ^ 53 ->
  Binary64.expiry now (Binary64.Finite v)
  = Binary64.Finite (now + v * 60 * 1000).
Proof.
  intros Hv Hnow Hsafe.
  unfold Binary64.expiry, Binary64.mul, Binary64.add.
  rewrite (round_safe (v * 60)) by lia.
  rewrite (round_safe (v * 60 * 1000)) by lia.
  apply round_safe. lia.
Qed.

Lemma validityMinutes64_safe (text : jsstring) (v : Z) :
  validityMinutes text = Some v ->
  Z.abs v <= 2 ^ 53 ->
  Binary64.validityMinutes64 text = Binary64.Finite v.
Proof.
  unfold validityMinutes, Binary64.validityMinutes64, Binary64.parseInt64.
  destruct (truthy text).
  - intros -> Hv. apply round_safe, Hv.
  - intros H _. injection H as <-. reflexivity.
Qed.

Section Accepted.

Variable rnd : nat -> Q.
Variable URL : jsstring -> option jsstring.

(** The world an accepted submission leads to. *)
Lemma handleShorten_accepts (fuel : nat) (now : Z) (iso : jsstring)
    (w : World) (url : jsstring) (v : Z) (code : jsstring) (pos : nat) :
  forallb is_whitespace (longUrl (ui w)) = false ->
  URL (longUrl (ui w)) = Some url ->
  validityMinutes (validity (ui w)) = Some v ->
  0 < v ->
  generateShortCode rnd fuel (existingCodes (shortUrls (ui w))) (randomPos w)
  = Some (code, pos) ->
  handleShorten rnd URL fuel now iso w
  = Some (logged iso (utf16 "Shortened new URL")
            [("shortCode"%string, Str code);
             ("originalUrl"%string, Str url);
             ("validityMinutes"%string, Num v)]
            {| ui := {| longUrl := [];
                        validity := [];
                        shortUrls :=
                          {| shortCode := code; originalUrl := url;
                             createdAt := now;
                             expiresAt := now + v * 60 * 1000;
                             clickCount := 0 |} :: shortUrls (ui w);
                        copied := copied (ui w);
                        redirectCode := redirectCode (ui w);
                        redirectResult := redirectResult (ui w);
                        showLogs := showLogs (ui w) |};
               logStore := logStore w;
               randomPos := pos;
               clipboard := clipboard w |}).
Proof.
  intros Hws Hurl Hv Hpos Hgen. unfold handleShorten.
  destruct (truthy (trim (longUrl (ui w)))) eqn:Ht.
  - simpl. rewrite Hurl, Hv.
    replace (v <=? 0) with false by (symmetry; apply Z.leb_gt; lia).
    rewrite Hgen. reflexivity.
  - apply trim_blank in Ht. congruence.
Qed.



End Accepted.


Example validityMinutes_space : validityMinutes (utf16 " ") = None.
Proof. reflexivity. Qed.

(** ** [handleRedirect] *)

(** With pairwise distinct codes, a record with the code is the one [find]
    returns. *)
Lemma first_match_unique (l : list ShortUrl) (i : nat) (u : ShortUrl) :
  NoDup (shortCode <$> l) -> l !! i = Some u ->
  first_match l (shortCode u) i u.
Proof.
  intros Hnd Hi. split; [exact Hi |]. split; [reflexivity |].
  intros j y Hj Hlt Heq.
  assert (j = i); [| lia].
  eapply NoDup_lookup; [exact Hnd | |].
  - rewrite list_lookup_fmap, Hj. reflexivity.
  - rewrite list_lookup_fmap, Hi. simpl. congruence.
Qed.

Lemma first_match_find (l : list ShortUrl) (code : jsstring) (i : nat)
    (u : ShortUrl) :
  first_match l code i u ->
  list_find (fun x => shortCode x = code) l = Some (i, u).
Proof. intros H. apply list_find_Some. exact H. Qed.

Lemma no_match_find (l : list ShortUrl) (code : jsstring) :
  Forall (fun u => shortCode u <> code) l ->
  list_find (fun x => shortCode x = code) l = None.
Proof. intros H. apply list_find_None. exact H. Qed.

(** C4: a redirect on a code no record carries shows "Short URL not found.",
    one on a record whose [expiresAt] lies before the current time shows
    "This short URL has expired."; in both cases the records stay as they
    were and the log grows by one failure entry. *)
Theorem handleRedirect_fails (now : Z) (iso : jsstring) (w : World) :
  let s := ui w in
  let w' := handleRedirect now iso w in
  (Forall (fun u => shortCode u <> redirectCode s) (shortUrls s) ->
   redirectResult (ui w') = Some (utf16 "Short URL not found.")
   /\ shortUrls (ui w') = shortUrls s
   /\ the_logs w'
      = the_logs w
        ++ [entry iso (utf16 "Redirection failed: code not found")
              [("shortCode"%string, Str (redirectCode s))]])
  /\ (forall i u,
        first_match (shortUrls s) (redirectCode s) i u ->
        expiresAt u < now ->
        redirectResult (ui w') = Some (utf16 "This short URL has expired.")
        /\ shortUrls (ui w') = shortUrls s
        /\ the_logs w'
           = the_logs w
             ++ [entry iso (utf16 "Redirection failed: code expired")
                   [("shortCode"%string, Str (redirectCode s))]]).
Proof.
  intros s w'. subst s w'. unfold handleRedirect. split.
  - intros Hnone. rewrite (no_match_find _ _ Hnone).
    rewrite the_logs_logged. auto.
  - intros i u Hm Hexp. rewrite (first_match_find _ _ _ _ Hm).
    replace (now >? expiresAt u) with true by (symmetry; apply Z.gtb_lt; lia).
    rewrite the_logs_logged. auto.
Qed.

Lemma handleRedirect_fails_witness :
  (redirectResult (ui (handleRedirect 2000 iso0 (visiting bbbbbb)))
   = Some (utf16 "Short URL not found.")
   /\ shortUrls (ui (handleRedirect 2000 iso0 (visiting bbbbbb)))
      = [sample_record]
   /\ the_logs (handleRedirect 2000 iso0 (visiting bbbbbb))
      = [] ++ [entry iso0 (utf16 "Redirection failed: code not found")
                 [("shortCode"%string, Str bbbbbb)]])
  /\ (redirectResult (ui (handleRedirect 61001 iso0 (visiting aaaaaa)))
      = Some (utf16 "This short URL has expired.")
      /\ shortUrls (ui (handleRedirect 61001 iso0 (visiting aaaaaa)))
         = [sample_record]
      /\ the_logs (handleRedirect 61001 iso0 (visiting aaaaaa))
         = [] ++ [entry iso0 (utf16 "Redirection failed: code expired")
                    [("shortCode"%string, Str aaaaaa)]]).
Proof.
  split.
  - apply (handleRedirect_fails 2000 iso0 (visiting bbbbbb)).
    simpl. constructor; [discriminate | constructor].
  - apply (proj2 (handleRedirect_fails 61001 iso0 (visiting aaaaaa))
             0%nat sample_record).
    + split; [reflexivity |]. split; [reflexivity |]. intros j y _ Hj. lia.
    + simpl. lia.
Defined.

(** C5: a redirect on the code of a stored record that has not expired
    ([now <= expiresAt]) adds exactly one to the [clickCount] of that record
    and changes nothing else in the collection, shows a message that contains
    the original URL of the record, and adds one success entry to the log. *)
Theorem handleRedirect_visits (now : Z) (iso : jsstring) (w : World)
    (i : nat) (u : ShortUrl) :
  let s := ui w in
  let w' := handleRedirect now iso w in
  first_match (shortUrls s) (redirectCode s) i u ->
  now <= expiresAt u ->
  (exists u',
      shortUrls (ui w') !! i = Some u'
      /\ clickCount u' = clickCount u + 1
      /\ shortCode u' = shortCode u /\ originalUrl u' = originalUrl u
      /\ createdAt u' = createdAt u /\ expiresAt u' = expiresAt u)
  /\ (forall j, j <> i -> shortUrls (ui w') !! j = shortUrls s !! j)
  /\ length (shortUrls (ui w')) = length (shortUrls s)
  /\ (exists msg,
        redirectResult (ui w') = Some msg /\ contains msg (originalUrl u))
  /\ the_logs w'
     = the_logs w
       ++ [entry iso (utf16 "Short URL visited")
             [("shortCode"%string, Str (redirectCode s));
              ("originalUrl"%string, Str (originalUrl u))]].
Proof.
  intros s w' Hm Hexp. subst s w'. unfold handleRedirect.
  rewrite (first_match_find _ _ _ _ Hm).
  replace (now >? expiresAt u) with false
    by (symmetry; rewrite Z.gtb_ltb; apply Z.ltb_ge; lia).
  rewrite the_logs_logged.
  cbn [ui logged with_ui shortUrls redirectResult].
  destruct Hm as (Hi & _ & _).
  split.
  { exists (incr_clickCount u). rewrite list_lookup_alter_eq, Hi. simpl. auto 10. }
  split; [intros j Hj; apply list_lookup_alter_ne; congruence |].
  split; [apply length_alter |].
  split; [| reflexivity].
  eexists. split; [reflexivity |].
  exists (utf16 "Redirected to: "), []. rewrite app_nil_r. reflexivity.
Qed.

Lemma handleRedirect_visits_witness :
  (exists u',
      shortUrls (ui (handleRedirect 61000 iso0 (visiting aaaaaa))) !! 0%nat
      = Some u'
      /\ clickCount u' = 4 + 1
      /\ shortCode u' = aaaaaa
      /\ originalUrl u' = utf16 "https://example.com/"
      /\ createdAt u' = 1000 /\ expiresAt u' = 61000)
  /\ (forall j, j <> 0%nat ->
        shortUrls (ui (handleRedirect 61000 iso0 (visiting aaaaaa))) !! j
        = [sample_record] !! j)
  /\ length (shortUrls (ui (handleRedirect 61000 iso0 (visiting aaaaaa))))
     = 1%nat
  /\ (exists msg,
        redirectResult (ui (handleRedirect 61000 iso0 (visiting aaaaaa)))
        = Some msg
        /\ contains msg (utf16 "https://example.com/"))
  /\ the_logs (handleRedirect 61000 iso0 (visiting aaaaaa))
     = [] ++ [entry iso0 (utf16 "Short URL visited")
                [("shortCode"%string, Str aaaaaa);
                 ("originalUrl"%string, Str (utf16 "https://example.com/"))]].
Proof.
  apply (handleRedirect_visits 61000 iso0 (visiting aaaaaa) 0%nat sample_record).
  - split; [reflexivity |]. split; [reflexivity |]. intros j y _ Hj. lia.
  - simpl. lia.
Defined.

(** ** The URL a record stores *)

Section Stored.

Variable rnd : nat -> Q.
Variable URL : jsstring -> option jsstring.
Variable origin : jsstring.

(** C10: the [originalUrl] of a new record is the serialisation the URL
    parser gives for the typed text, not the text itself; it is what the
    link of the record's row in the table points to and shows, and what the
    message of a later redirect on the new code shows.  So, the parser
    serialising "https://example.com" as "https://example.com/", shortening
    the former stores the latter, which is not what was typed. *)
Theorem originalUrl_is_serialisation (fuel : nat) (now : Z) (iso : jsstring)
    (w : World) (url : jsstring) (v : Z) (code : jsstring) (pos : nat) :
  forallb is_whitespace (longUrl (ui w)) = false ->
  URL (longUrl (ui w)) = Some url ->
  validityMinutes (validity (ui w)) = Some v ->
  0 < v ->
  generateShortCode rnd fuel (existingCodes (shortUrls (ui w))) (randomPos w)
  = Some (code, pos) ->
  exists w' r,
    handleShorten rnd URL fuel now iso w = Some w'
    /\ shortUrls (ui w') = r :: shortUrls (ui w)
    /\ originalUrl r = url
    /\ (forall t, exists tr others,
           rows (render origin t w').1 = tr :: others
           /\ key tr = code /\ linkHref tr = url /\ linkText tr = url)
    /\ (forall now' iso',
          now' <= expiresAt r ->
          exists w'',
            run rnd URL origin
              [ChangeRedirectCode code; SubmitRedirect now' iso'] w'
            = Some w''
            /\ redirectResult (ui w'')
               = Some (utf16 "Redirected to: " ++ url))
    /\ (longUrl (ui w) = utf16 "https://example.com" ->
        URL (utf16 "https://example.com") = Some (utf16 "https://example.com/") ->
        originalUrl r = utf16 "https://example.com/"
        /\ originalUrl r <> longUrl (ui w)).
Proof.
  intros Hws Hurl Hv Hpos Hgen.
  eexists _, _. split; [eapply handleShorten_accepts; eassumption |].
  cbn [ui logged shortUrls]. split; [reflexivity |].
  cbn [originalUrl expiresAt]. split; [reflexivity |].
  split.
  { intros t. unfold render. cbn [ui logged showLogs shortUrls].
    destruct (showLogs (ui w)); cbn [fst rows fmap list_fmap];
      eexists _, _; (split; [reflexivity |]); cbn [row key linkHref linkText
        shortCode originalUrl]; auto. }
  split.
  { intros now' iso' Hnow. eexists. split; [reflexivity |].
    unfold handleRedirect.
    cbn [ui logged with_ui shortUrls redirectCode].
    erewrite (first_match_find _ _ 0%nat); cycle 1.
    { split; [reflexivity |]. split; [reflexivity |]. intros j y _ Hj. lia. }
    cbn [expiresAt originalUrl].
    replace (now' >? now + v * 60 * 1000) with false
      by (symmetry; rewrite Z.gtb_ltb; apply Z.ltb_ge; lia).
    reflexivity. }
  intros Htyped Hparser. rewrite Htyped in Hurl |- *.
  rewrite Hparser in Hurl. injection Hurl as <-.
  split; [reflexivity | discriminate].
Qed.

End Stored.

Lemma originalUrl_is_serialisation_witness :
  exists w' r,
    handleShorten zeros sample_URL 1 1000 iso0 (typed example_com (utf16 "1"))
    = Some w'
    /\ shortUrls (ui w') = r :: []
    /\ originalUrl r = utf16 "https://example.com/"
    /\ (forall t, exists tr others,
           rows (render sample_origin t w').1 = tr :: others
           /\ key tr = aaaaaa
           /\ linkHref tr = utf16 "https://example.com/"
           /\ linkText tr = utf16 "https://example.com/")
    /\ (forall now' iso',
          now' <= expiresAt r ->
          exists w'',
            run zeros sample_URL sample_origin
              [ChangeRedirectCode aaaaaa; SubmitRedirect now' iso'] w'
            = Some w''
            /\ redirectResult (ui w'')
               = Some (utf16 "Redirected to: " ++ utf16 "https://example.com/"))
    /\ (example_com = utf16 "https://example.com" ->
        sample_URL (utf16 "https://example.com")
        = Some (utf16 "https://example.com/") ->
        originalUrl r = utf16 "https://example.com/"
        /\ originalUrl r <> example_com).
Proof.
  apply (originalUrl_is_serialisation zeros sample_URL sample_origin
           1 1000 iso0 (typed example_com (utf16 "1"))
           (utf16 "https://example.com/") 1 aaaaaa 6).
  - reflexivity.
  - vm_compute. reflexivity.
  - reflexivity.
  - lia.
  - vm_compute. reflexivity.
Defined.

(** ** Distinct codes *)

Section Invariant.

Variable rnd : nat -> Q.
Variable URL : jsstring -> option jsstring.
Variable origin : jsstring.

Lemma handleShorten_codes (fuel : nat) (now : Z) (iso : jsstring)
    (w w' : World) :
  handleShorten rnd URL fuel now iso w = Some w' ->
  codes w' = codes w
  \/ exists code, codes w' = code :: codes w /\ code ∉ codes w.
Proof.
  unfold handleShorten. intros H.
  destruct (negb _); [injection H as <-; left; reflexivity |].
  destruct (URL _) as [url|]; [| injection H as <-; left; reflexivity].
  destruct (validityMinutes _) as [v|]; [| injection H as <-; left; reflexivity].
  destruct (v <=? 0); [injection H as <-; left; reflexivity |].
  destruct (generateShortCode _ _ _ _) as [[code pos]|] eqn:Hgen; [| discriminate].
  injection H as <-. right. exists code. split; [reflexivity |].
  destruct (generate_Some rnd _ _ _ _ _ Hgen) as (k & _ & _ & _ & Hf & _).
  unfold existingCodes in Hf. rewrite elem_of_list_to_set in Hf. exact Hf.
Qed.

Lemma handleRedirect_codes (now : Z) (iso : jsstring) (w : World) :
  codes (handleRedirect now iso w) = codes w.
Proof.
  unfold handleRedirect.
  destruct (list_find _ _) as [[i found]|]; [| reflexivity].
  destruct (now >? expiresAt found); [reflexivity |].
  unfold codes. cbn [ui logged with_ui shortUrls].
  rewrite (list_fmap_alter shortCode incr_clickCount id).
  - apply list_alter_id. reflexivity.
  - apply Forall_forall. reflexivity.
Qed.

Lemma dispatch_codes (e : Event) (w w' : World) :
  dispatch rnd URL origin e w = Some w' ->
  codes w' = codes w
  \/ exists code, codes w' = code :: codes w /\ code ∉ codes w.
Proof.
  destruct e as [v|v|v|fuel now iso|access code iso| |now iso| ];
    simpl; intros H;
    try (injection H as <-; left; reflexivity).
  - eapply handleShorten_codes; eassumption.
  - injection H as <-. left. destruct access; reflexivity.
  - injection H as <-. left. apply handleRedirect_codes.
Qed.

Lemma run_NoDup (es : list Event) : forall w w',
  NoDup (codes w) -> run rnd URL origin es w = Some w' -> NoDup (codes w').
Proof.
  induction es as [|e es IH]; intros w w' Hnd H; simpl in H.
  - injection H as <-. exact Hnd.
  - destruct (dispatch rnd URL origin e w) as [w1|] eqn:Hd; [| discriminate].
    apply (IH w1 w'); [| exact H].
    destruct (dispatch_codes _ _ _ Hd) as [-> | (code & -> & Hf)];
      [exact Hnd |].
    apply NoDup_cons. split; assumption.
Qed.

(** C6: in every state a session can reach, two records in different slots
    of the collection have different codes. *)
Theorem shortCodes_distinct (w : World) (i j : nat) (u1 u2 : ShortUrl) :
  reachable rnd URL origin w ->
  shortUrls (ui w) !! i = Some u1 ->
  shortUrls (ui w) !! j = Some u2 ->
  shortCode u1 = shortCode u2 ->
  i = j.
Proof.
  intros [es Hrun] Hi Hj Heq.
  assert (Hnd : NoDup (codes w)).
  { eapply run_NoDup; [| exact Hrun]. constructor. }
  eapply NoDup_lookup; [exact Hnd | |]; unfold codes;
    rewrite list_lookup_fmap.
  - rewrite Hi. reflexivity.
  - rewrite Hj. simpl. congruence.
Qed.

End Invariant.

Lemma shortCodes_distinct_witness :
  exists w u1 u2,
    run a_a_then_b sample_URL sample_origin two_shortens initial = Some w
    /\ shortUrls (ui w) !! 0%nat = Some u1
    /\ shortUrls (ui w) !! 1%nat = Some u2
    /\ shortCode u1 = bbbbbb /\ shortCode u2 = aaaaaa
    /\ shortCode u1 <> shortCode u2.
Proof.
  eexists _, _, _.
  split; [vm_compute; reflexivity |].
  split; [reflexivity |]. split; [reflexivity |].
  split; [reflexivity |]. split; [reflexivity |].
  intros Heq.
  eapply (shortCodes_distinct a_a_then_b sample_URL sample_origin _ 0 1) in Heq.
  - discriminate Heq.
  - exists two_shortens. vm_compute. reflexivity.
  - reflexivity.
  - reflexivity.
Defined.

(** ** The log: one entry per operation, in order; snapshots *)

Lemma getLogs_fresh (σ : store) :
  (getLogs σ).1 <> logs /\ σ !! (getLogs σ).1 = None.
Proof.
  unfold getLogs. cbn [fst].
  pose proof (is_fresh ({[ logs ]} ∪ dom σ)) as Hf.
  split.
  - intros E. apply Hf. rewrite E. set_solver.
  - apply not_elem_of_dom. set_solver.
Qed.

Section Log.

Variable rnd : nat -> Q.
Variable URL : jsstring -> option jsstring.
Variable origin : jsstring.

Lemma handleShorten_logs (fuel : nat) (now : Z) (iso : jsstring)
    (w w' : World) :
  handleShorten rnd URL fuel now iso w = Some w' ->
  exists msg ctx, the_logs w' = the_logs w ++ [entry iso msg ctx].
Proof.
  unfold handleShorten. intros H.
  destruct (negb _);
    [injection H as <-; rewrite the_logs_logged; eauto |].
  destruct (URL _) as [url|];
    [| injection H as <-; rewrite the_logs_logged; eauto].
  destruct (validityMinutes _) as [v|];
    [| injection H as <-; rewrite the_logs_logged; eauto].
  destruct (v <=? 0);
    [injection H as <-; rewrite the_logs_logged; eauto |].
  destruct (generateShortCode _ _ _ _) as [[code pos]|]; [| discriminate].
  injection H as <-. rewrite the_logs_logged. eauto.
Qed.

Lemma handleRedirect_logs (now : Z) (iso : jsstring) (w : World) :
  exists msg ctx,
    the_logs (handleRedirect now iso w) = the_logs w ++ [entry iso msg ctx].
Proof.
  unfold handleRedirect.
  destruct (list_find _ _) as [[i found]|];
    [destruct (now >? expiresAt found) |];
    rewrite the_logs_logged; eauto.
Qed.

Lemma handleCopy_logs (access : Clipboard) (code iso : jsstring)
    (w w' : World) :
  handleCopy origin access code iso w = Some w' ->
  the_logs w'
  = the_logs w
    ++ [entry iso (utf16 "Copied short URL") [("shortCode"%string, Str code)]].
Proof.
  unfold handleCopy. destruct access; intros H; [discriminate | |];
    injection H as <-; rewrite the_logs_logged; reflexivity.
Qed.

Lemma handleCopy_throws (code iso : jsstring) (w : World) :
  handleCopy origin ClipboardMissing code iso w = None.
Proof. reflexivity. Qed.

Lemma dispatch_logs (e : Event) (w w' : World) :
  dispatch rnd URL origin e w = Some w' ->
  match stamp_of e with
  | Some iso => exists msg ctx, the_logs w' = the_logs w ++ [entry iso msg ctx]
  | None => the_logs w' = the_logs w
  end.
Proof.
  destruct e as [v|v|v|fuel now iso|access code iso| |now iso| ];
    cbn [dispatch stamp_of]; intros H;
    try (injection H as <-; reflexivity).
  - eapply handleShorten_logs; eassumption.
  - injection H as <-. destruct access; [reflexivity | |];
      eexists _, _.
    + apply (handleCopy_logs ClipboardDenies code iso w). reflexivity.
    + apply (handleCopy_logs ClipboardWrites code iso w). reflexivity.
  - injection H as <-. apply handleRedirect_logs.
Qed.

Lemma run_logs (es : list Event) : forall w w',
  run rnd URL origin es w = Some w' ->
  exists new, the_logs w' = the_logs w ++ new
              /\ timestamp <$> new = omap stamp_of es.
Proof.
  induction es as [|e es IH]; intros w w' H; simpl in H.
  - injection H as <-. exists []. rewrite app_nil_r. auto.
  - destruct (dispatch rnd URL origin e w) as [w1|] eqn:Hd; [| discriminate].
    destruct (IH _ _ H) as (new & Hnew & Hts).
    pose proof (dispatch_logs _ _ _ Hd) as Hone. cbn [omap list_omap].
    destruct (stamp_of e) as [iso|].
    + destruct Hone as (msg & ctx & Hone).
      exists (entry iso msg ctx :: new). rewrite Hnew, Hone, <- app_assoc.
      split; [reflexivity |]. rewrite fmap_cons, Hts. reflexivity.
    + exists new. rewrite Hnew, Hone. auto.
Qed.

(** C7: every shorten (accepted or refused), every redirect and every copy
    that finds [navigator.clipboard] adds exactly one entry to the log, and
    no other event touches it, so that after a session the new entries are
    those of these operations in the order they happened; [getLogs] returns
    a new array with the entries in that order, and mutating it leaves the
    log as it was.  A copy that does not find [navigator.clipboard] throws
    before it logs: it leaves the page and the log as they were. *)
Theorem log_records_operations :
  (forall e w w',
      dispatch rnd URL origin e w = Some w' ->
      match stamp_of e with
      | Some iso =>
          exists msg ctx, the_logs w' = the_logs w ++ [entry iso msg ctx]
      | None => the_logs w' = the_logs w
      end)
  /\ (forall es w w',
        run rnd URL origin es w = Some w' ->
        exists new, the_logs w' = the_logs w ++ new
                    /\ timestamp <$> new = omap stamp_of es)
  /\ (forall σ : store,
        let r := (getLogs σ).1 in
        let σ' := (getLogs σ).2 in
        r <> logs
        /\ σ !! r = None
        /\ deref σ' r = deref σ logs
        /\ deref σ' logs = deref σ logs
        /\ forall f, deref (mutate f r σ') logs = deref σ logs
                     /\ deref (mutate f r σ') r = f (deref σ logs))
  /\ (forall access code iso,
        stamp_of (ClickCopy access code iso)
        = match access with
          | ClipboardMissing => None
          | ClipboardDenies | ClipboardWrites => Some iso
          end)
  /\ (forall code iso w,
        handleCopy origin ClipboardMissing code iso w = None
        /\ dispatch rnd URL origin (ClickCopy ClipboardMissing code iso) w
           = Some w).
Proof.
  split; [exact dispatch_logs |]. split; [exact run_logs |].
  split.
  { intros σ r σ'. destruct (getLogs_fresh σ) as [Hne Hnone].
    fold r in Hne, Hnone. subst σ'. unfold getLogs. fold r. cbn [snd].
    unfold deref, mutate.
    split; [exact Hne |]. split; [exact Hnone |].
    split; [rewrite lookup_insert_eq; reflexivity |].
    split; [rewrite lookup_insert_ne by exact Hne; reflexivity |].
    intros f. split.
    - rewrite lookup_alter_ne by exact Hne.
      rewrite lookup_insert_ne by exact Hne. reflexivity.
    - rewrite lookup_alter_eq, lookup_insert_eq. reflexivity. }
  split.
  { intros access code iso. destruct access; reflexivity. }
  intros code iso w. split; reflexivity.
Qed.

End Log.

Lemma log_records_operations_witness :
  exists w new,
    run a_a_then_b sample_URL sample_origin a_session initial = Some w
    /\ the_logs w = the_logs initial ++ new
    /\ timestamp <$> new = [iso0; iso1; iso1; iso1].
Proof.
  assert (Hrun : exists w,
             run a_a_then_b sample_URL sample_origin a_session initial = Some w).
  { eexists. vm_compute. reflexivity. }
  destruct Hrun as [w Hrun].
  destruct (proj1 (proj2 (log_records_operations a_a_then_b sample_URL
                            sample_origin)) _ _ _ Hrun) as (new & Hlogs & Hts).
  exists w, new. split; [exact Hrun |]. split; [exact Hlogs |]. exact Hts.
Defined.


(** * Further properties of the code *)

(** ** The generator reaches every code *)

Lemma alnum_in_chars (c : N) :
  is_alnum c = true -> chars !! index_of c = Some c /\ (index_of c < 62)%nat.
Proof.
  intros Ha.
  assert (Hc : (c < 123)%N).
  { unfold is_alnum in Ha.
    destruct (N.ltb_spec c 123) as [|Hge]; [assumption |].
    exfalso. revert Ha.
    replace (c <=? 0x7A)%N with false by (symmetry; apply N.leb_gt; lia).
    replace (c <=? 0x5A)%N with false by (symmetry; apply N.leb_gt; lia).
    replace (c <=? 0x39)%N with false by (symmetry; apply N.leb_gt; lia).
    rewrite !andb_false_r. discriminate. }
  assert (Hall : forallb (fun n => implb (is_alnum n)
                                     (bool_decide (chars !! index_of n = Some n
                                                   /\ (index_of n < 62)%nat)))
                   (N.of_nat <$> seq 0 123) = true)
    by (vm_compute; reflexivity).
  rewrite forallb_forall in Hall.
  assert (Hin : In c (N.of_nat <$> seq 0 123)).
  { apply list_elem_of_In, list_elem_of_fmap. exists (N.to_nat c).
    split; [symmetry; apply N2Nat.id |].
    apply elem_of_seq. lia. }
  pose proof (Hall c Hin) as H. rewrite Ha in H. simpl in H.
  apply bool_decide_eq_true in H. exact H.
Qed.

Lemma floor_of_index (z : Z) : Math_floor ((z # 62) * inject_Z 62) = z.
Proof.
  unfold Math_floor.
  assert (E : ((z # 62) * inject_Z 62 == inject_Z z)%Q).
  { unfold Qeq. simpl. lia. }
  rewrite E. apply Qfloor_Z.
Qed.

Lemma draws_for_lookup (code : jsstring) (j : nat) (c : N) :
  code !! j = Some c -> draws_for code j = (Z.of_nat (index_of c) # 62)%Q.
Proof. intros H. unfold draws_for. rewrite H. reflexivity. Qed.

Lemma draws_for_loop (code : jsstring) :
  forallb is_alnum code = true ->
  forall n cur acc,
    (cur + n <= length code)%nat ->
    for_loop (draws_for code) n acc cur
    = (acc ++ take n (drop cur code), (cur + n)%nat).
Proof.
  intros Hal. induction n as [|n IH]; intros cur acc Hle; cbn [for_loop].
  - rewrite take_0, app_nil_r, Nat.add_0_r. reflexivity.
  - destruct (code !! cur) as [c|] eqn:Hc;
      [| apply lookup_ge_None in Hc; lia].
    assert (Ha : is_alnum c = true).
    { rewrite forallb_forall in Hal. apply Hal, list_elem_of_In.
      eapply list_elem_of_lookup_2; eauto. }
    destruct (alnum_in_chars c Ha) as [Hi Hlt].
    rewrite (draws_for_lookup _ _ _ Hc).
    change (length_of chars) with 62. rewrite floor_of_index.
    unfold charAt. change (length_of chars) with 62.
    replace ((0 <=? Z.of_nat (index_of c)) && (Z.of_nat (index_of c) <? 62))
      with true
      by (symmetry; apply andb_true_iff; split;
          [apply Z.leb_le | apply Z.ltb_lt]; lia).
    rewrite Nat2Z.id, Hi.
    rewrite IH by lia.
    rewrite (drop_S _ _ _ Hc). cbn [take]. rewrite <- app_assoc.
    f_equal. lia.
Qed.

(** X1: every six-character text over [a-zA-Z0-9] is a possible result of the
    generator: there are draws in the unit interval that spell it at the
    first attempt, and with them the generator returns it for any set of
    existing codes that does not hold it, after exactly six draws. *)
Theorem generateShortCode_reaches (code : jsstring) (existing : gset jsstring) :
  length code = 6%nat ->
  forallb is_alnum code = true ->
  code ∉ existing ->
  unit_interval (draws_for code)
  /\ generateShortCode (draws_for code) 1 existing 0 = Some (code, 6%nat).
Proof.
  intros Hlen Hal Hfresh. split.
  - intros j. unfold draws_for.
    destruct (code !! j) as [c|] eqn:Hc; [| split; reflexivity || discriminate].
    assert (Ha : is_alnum c = true).
    { rewrite forallb_forall in Hal. apply Hal, list_elem_of_In.
      eapply list_elem_of_lookup_2; eauto. }
    destruct (alnum_in_chars c Ha) as [_ Hlt].
    unfold Qle, Qlt. simpl. lia.
  - rewrite generate_unfold. unfold attempt. simpl Nat.add.
    rewrite (draws_for_loop code Hal 6 0 []) by lia.
    rewrite drop_0, <- Hlen, firstn_all. simpl.
    rewrite decide_False by assumption. rewrite Hlen. reflexivity.
Qed.

Lemma generateShortCode_reaches_witness :
  unit_interval (draws_for (utf16 "Zz09aQ"))
  /\ generateShortCode (draws_for (utf16 "Zz09aQ")) 1 {[ aaaaaa ]} 0
     = Some (utf16 "Zz09aQ", 6%nat).
Proof.
  apply (generateShortCode_reaches (utf16 "Zz09aQ") {[ aaaaaa ]}).
  - reflexivity.
  - reflexivity.
  - rewrite elem_of_singleton. discriminate.
Defined.

(** ** What a session keeps *)

Lemma count_message_app (msg : jsstring) (l1 l2 : list LogEntry) :
  count_message msg (l1 ++ l2)
  = (count_message msg l1 + count_message msg l2)%nat.
Proof. unfold count_message. rewrite filter_app, length_app. reflexivity. Qed.

Lemma count_message_one (msg : jsstring) (e : LogEntry) :
  count_message msg [e] = if decide (message e = msg) then 1%nat else 0%nat.
Proof.
  unfold count_message. rewrite filter_cons, filter_nil.
  destruct (decide (message e = msg)); reflexivity.
Qed.

Lemma total_clicks_alter (l : list ShortUrl) (i : nat) (u : ShortUrl) :
  l !! i = Some u ->
  total_clicks (alter incr_clickCount i l) = total_clicks l + 1.
Proof.
  unfold total_clicks.
  revert i. induction l as [|x l IH]; intros [|i] H; try discriminate.
  - injection H as ->. simpl. lia.
  - change (alter incr_clickCount (S i) (x :: l))
      with (x :: alter incr_clickCount i l).
    cbn [foldr]. rewrite (IH i H). lia.
Qed.

Section Sessions.

Variable rnd : nat -> Q.
Variable URL : jsstring -> option jsstring.
Variable origin : jsstring.

(** A property every event keeps holds along a whole session. *)
Lemma run_invariant (P : World -> Prop) :
  (forall e w w', P w -> dispatch rnd URL origin e w = Some w' -> P w') ->
  forall es w w', P w -> run rnd URL origin es w = Some w' -> P w'.
Proof.
  intros Hstep. induction es as [|e es IH]; intros w w' HP H; simpl in H.
  - injection H as <-. exact HP.
  - destruct (dispatch rnd URL origin e w) as [w1|] eqn:Hd; [| discriminate].
    eapply IH; [| exact H]. eapply Hstep; eauto.
Qed.

(** The three ways an event can leave the collection and the log: the
    collection as it was and no entry about a creation or a visit; a new
    record in front; one more click in the slot [find] returned. *)
Lemma dispatch_cases (e : Event) (w w' : World) :
  dispatch rnd URL origin e w = Some w' ->
  (shortUrls (ui w') = shortUrls (ui w)
   /\ exists new,
       the_logs w' = the_logs w ++ new
       /\ count_message (utf16 "Shortened new URL") new = 0%nat
       /\ count_message (utf16 "Short URL visited") new = 0%nat)
  \/ (exists fuel now iso url v code pos,
         e = SubmitShorten fuel now iso
         /\ URL (longUrl (ui w)) = Some url
         /\ validityMinutes (validity (ui w)) = Some v
         /\ 0 < v
         /\ generateShortCode rnd fuel (existingCodes (shortUrls (ui w)))
              (randomPos w) = Some (code, pos)
         /\ shortUrls (ui w')
            = {| shortCode := code; originalUrl := url; createdAt := now;
                 expiresAt := now + v * 60 * 1000; clickCount := 0 |}
              :: shortUrls (ui w)
         /\ exists ctx,
             the_logs w'
             = the_logs w ++ [entry iso (utf16 "Shortened new URL") ctx])
  \/ (exists now iso i found,
         e = SubmitRedirect now iso
         /\ first_match (shortUrls (ui w)) (redirectCode (ui w)) i found
         /\ now <= expiresAt found
         /\ shortUrls (ui w') = alter incr_clickCount i (shortUrls (ui w))
         /\ exists ctx,
             the_logs w'
             = the_logs w ++ [entry iso (utf16 "Short URL visited") ctx]).
Proof.
  assert (Hquiet : forall iso msg ctx w0,
             msg <> utf16 "Shortened new URL" ->
             msg <> utf16 "Short URL visited" ->
             shortUrls (ui w0) = shortUrls (ui w) ->
             the_logs w0 = the_logs w ->
             shortUrls (ui (logged iso msg ctx w0)) = shortUrls (ui w)
             /\ exists new,
                 the_logs (logged iso msg ctx w0) = the_logs w ++ new
                 /\ count_message (utf16 "Shortened new URL") new = 0%nat
                 /\ count_message (utf16 "Short URL visited") new = 0%nat).
  { intros iso msg ctx w0 H1 H2 Hs Hl. split; [exact Hs |].
    exists [entry iso msg ctx]. rewrite the_logs_logged, Hl.
    split; [reflexivity |].
    rewrite !count_message_one. cbn [message entry].
    rewrite !decide_False by assumption. auto. }
  assert (Hsame : forall w0,
             shortUrls (ui w0) = shortUrls (ui w) ->
             the_logs w0 = the_logs w ->
             shortUrls (ui w0) = shortUrls (ui w)
             /\ exists new,
                 the_logs w0 = the_logs w ++ new
                 /\ count_message (utf16 "Shortened new URL") new = 0%nat
                 /\ count_message (utf16 "Short URL visited") new = 0%nat).
  { intros w0 Hs Hl. split; [exact Hs |]. exists [].
    rewrite app_nil_r. auto. }
  destruct e as [v|v|v|fuel now iso|access code iso| |now iso| ]; simpl;
    intros H;
    try (injection H as <-; left; apply Hsame; reflexivity).
  - (* handleShorten *)
    unfold handleShorten in H.
    destruct (negb _);
      [injection H as <-; left; apply Hquiet; (discriminate || reflexivity) |].
    destruct (URL _) as [url|] eqn:Hurl;
      [| injection H as <-; left; apply Hquiet; (discriminate || reflexivity)].
    destruct (validityMinutes _) as [m|] eqn:Hv;
      [| injection H as <-; left; apply Hquiet; (discriminate || reflexivity)].
    destruct (m <=? 0) eqn:Hm;
      [injection H as <-; left; apply Hquiet; (discriminate || reflexivity) |].
    destruct (generateShortCode _ _ _ _) as [[code pos]|] eqn:Hgen;
      [| discriminate].
    injection H as <-. right. left.
    exists fuel, now, iso, url, m, code, pos.
    apply Z.leb_gt in Hm. rewrite the_logs_logged.
    repeat (split; [first [reflexivity | assumption] |]). eauto.
  - (* handleCopy *)
    injection H as <-. left.
    destruct access; [apply Hsame; reflexivity | |];
      apply Hquiet; (discriminate || reflexivity).
  - (* handleRedirect *)
    injection H as <-. unfold handleRedirect.
    destruct (list_find _ _) as [[i found]|] eqn:Hf.
    + destruct (now >? expiresAt found) eqn:Hexp.
      * left. apply Hquiet; (discriminate || reflexivity).
      * right. right. exists now, iso, i, found.
        apply list_find_Some in Hf.
        rewrite Z.gtb_ltb in Hexp. apply Z.ltb_ge in Hexp.
        rewrite the_logs_logged.
        repeat (split; [first [reflexivity | assumption] |]). eauto.
    + left. apply Hquiet; (discriminate || reflexivity).
Qed.

End Sessions.

Lemma same_but_clicks_refl (u : ShortUrl) : same_but_clicks u u.
Proof. unfold same_but_clicks. repeat split; lia. Qed.

Lemma same_but_clicks_incr (u' u : ShortUrl) :
  same_but_clicks u' u -> same_but_clicks (incr_clickCount u') u.
Proof.
  unfold same_but_clicks. simpl. intros (? & ? & ? & ? & ?).
  repeat split; try assumption. lia.
Qed.

Lemma well_formed_incr (URL : jsstring -> option jsstring) (u : ShortUrl) :
  well_formed URL u -> well_formed URL (incr_clickCount u).
Proof.
  unfold well_formed. simpl. intros (? & ? & ? & ? & ?).
  repeat split; try assumption. lia.
Qed.

Lemma the_logs_initial : the_logs initial = [].
Proof. reflexivity. Qed.

Section Kept.

Variable rnd : nat -> Q.
Variable URL : jsstring -> option jsstring.
Variable origin : jsstring.

Lemma reachable_well_formed (w : World) :
  unit_interval rnd ->
  reachable rnd URL origin w ->
  Forall (well_formed URL) (shortUrls (ui w)).
Proof.
  intros Hu [es Hrun].
  refine (run_invariant rnd URL origin
            (fun w => Forall (well_formed URL) (shortUrls (ui w)))
            _ es initial w _ Hrun); [| constructor].
  intros e w0 w1 HP Hd.
  destruct (dispatch_cases rnd URL origin e w0 w1 Hd)
    as [[-> _] | [(fuel & now & iso & url & v & code & pos & _ & Hurl & _
                   & Hv & Hgen & -> & _)
                 | (now & iso & i & found & _ & _ & _ & -> & _)]].
  - exact HP.
  - constructor; [| exact HP].
    destruct (generate_Some rnd _ _ _ _ _ Hgen) as (k & _ & -> & _).
    destruct (attempt_length_alnum rnd (randomPos w0) k Hu) as [Hlen Hal].
    unfold well_formed.
    cbn [shortCode clickCount expiresAt createdAt originalUrl].
    split; [exact Hlen |]. split; [exact Hal |]. split; [lia |].
    split; [lia |].
    exists (longUrl (ui w0)). exact Hurl.
  - apply Forall_alter; [exact HP |].
    intros x _. apply well_formed_incr.
Qed.

Lemma reachable_NoDup (w : World) :
  reachable rnd URL origin w -> NoDup (codes w).
Proof.
  intros [es Hrun]. eapply run_NoDup; [| exact Hrun]. constructor.
Qed.

(** X2: in every state a session reaches, with draws in the unit interval,
    each record has a code of six characters of [a-zA-Z0-9], a click count
    that is not negative, an expiry at least one minute after its creation,
    and for original URL a serialisation the URL parser gave. *)
Theorem records_well_formed (w : World) (u : ShortUrl) :
  unit_interval rnd ->
  reachable rnd URL origin w ->
  u ∈ shortUrls (ui w) ->
  well_formed URL u.
Proof.
  intros Hu Hreach Hin.
  pose proof (reachable_well_formed w Hu Hreach) as Hall.
  rewrite Forall_forall in Hall. apply Hall, Hin.
Qed.

(** X3: a session never removes, reorders or rewrites a record: the
    collection at its end is some new records followed by the records it
    started with, slot by slot the same but for click counts, which have not
    gone down. *)
Theorem collection_only_grows (es : list Event) (w w' : World) :
  run rnd URL origin es w = Some w' ->
  exists newer kept,
    shortUrls (ui w') = newer ++ kept
    /\ Forall2 same_but_clicks kept (shortUrls (ui w)).
Proof.
  intros Hrun.
  refine (run_invariant rnd URL origin
            (fun w0 => exists newer kept,
                 shortUrls (ui w0) = newer ++ kept
                 /\ Forall2 same_but_clicks kept (shortUrls (ui w)))
            _ es w w' _ Hrun).
  - intros e w0 w1 (newer & kept & Heq & Hkept) Hd.
    destruct (dispatch_cases rnd URL origin e w0 w1 Hd)
      as [[-> _] | [(fuel & now & iso & url & v & code & pos & _ & _ & _
                     & _ & _ & -> & _)
                   | (now & iso & i & found & _ & _ & _ & -> & _)]].
    + exists newer, kept. auto.
    + eexists (_ :: newer), kept. rewrite Heq. auto.
    + rewrite Heq. destruct (decide (i < length newer)%nat) as [Hlt|Hge].
      * exists (alter incr_clickCount i newer), kept.
        rewrite alter_app_l by exact Hlt. auto.
      * exists newer, (alter incr_clickCount (i - length newer)%nat kept).
        rewrite alter_app_r_alt by lia. split; [reflexivity |].
        apply Forall2_alter_l; [exact Hkept |].
        intros x y _ _. apply same_but_clicks_incr.
  - exists [], (shortUrls (ui w)). split; [reflexivity |].
    apply Forall_Forall2_diag, Forall_forall. intros x _.
    apply same_but_clicks_refl.
Qed.

(** X4: in every state a session reaches, the log accounts for the
    collection: it holds as many "Shortened new URL" entries as there are
    records, and as many "Short URL visited" entries as the click counts of
    all records add up to. *)
Theorem log_accounts_for_records (w : World) :
  reachable rnd URL origin w ->
  count_message (utf16 "Shortened new URL") (the_logs w)
  = length (shortUrls (ui w))
  /\ Z.of_nat (count_message (utf16 "Short URL visited") (the_logs w))
     = total_clicks (shortUrls (ui w)).
Proof.
  intros [es Hrun].
  refine (run_invariant rnd URL origin
            (fun w =>
               count_message (utf16 "Shortened new URL") (the_logs w)
               = length (shortUrls (ui w))
               /\ Z.of_nat (count_message (utf16 "Short URL visited")
                              (the_logs w))
                  = total_clicks (shortUrls (ui w)))
            _ es initial w _ Hrun); [| split; reflexivity].
  intros e w0 w1 [Hn Hc] Hd.
  destruct (dispatch_cases rnd URL origin e w0 w1 Hd)
    as [[-> (new & -> & H1 & H2)]
       | [(fuel & now & iso & url & v & code & pos & _ & _ & _
           & _ & _ & -> & ctx & ->)
         | (now & iso & i & found & _ & (Hi & _) & _ & -> & ctx & ->)]];
    rewrite !count_message_app.
  - rewrite H1, H2, !Nat.add_0_r. auto.
  - rewrite !count_message_one. cbn [message entry].
    rewrite decide_True by reflexivity.
    rewrite decide_False by discriminate.
    cbn [length total_clicks foldr clickCount].
    fold (total_clicks (shortUrls (ui w0))). split; lia.
  - rewrite !count_message_one. cbn [message entry].
    rewrite decide_False by discriminate.
    rewrite decide_True by reflexivity.
    rewrite length_alter, (total_clicks_alter _ _ _ Hi). split; lia.
Qed.

End Kept.

Lemma records_well_formed_witness :
  exists w u,
    run a_a_then_b sample_URL sample_origin a_session initial = Some w
    /\ shortUrls (ui w) !! 0%nat = Some u
    /\ shortCode u = bbbbbb
    /\ well_formed sample_URL u.
Proof.
  assert (Hrun : exists w u,
             run a_a_then_b sample_URL sample_origin a_session initial = Some w
             /\ shortUrls (ui w) !! 0%nat = Some u
             /\ shortCode u = bbbbbb).
  { eexists _, _. split; [vm_compute; reflexivity |].
    split; reflexivity. }
  destruct Hrun as (w & u & Hrun & Hu & Hcode).
  exists w, u. split; [exact Hrun |]. split; [exact Hu |].
  split; [exact Hcode |].
  apply (records_well_formed a_a_then_b sample_URL sample_origin w u).
  - intros i. unfold a_a_then_b. destruct (i <? 12)%nat;
      split; reflexivity || discriminate.
  - exists a_session. exact Hrun.
  - eapply list_elem_of_lookup_2. exact Hu.
Defined.

Lemma collection_only_grows_witness :
  exists newer kept,
    shortUrls (ui (handleRedirect 61000 iso0 (visiting aaaaaa)))
    = newer ++ kept
    /\ Forall2 same_but_clicks kept [sample_record].
Proof.
  apply (collection_only_grows zeros sample_URL sample_origin
           [SubmitRedirect 61000 iso0] (visiting aaaaaa)).
  reflexivity.
Defined.

Lemma log_accounts_for_records_witness :
  exists w,
    run a_a_then_b sample_URL sample_origin a_session initial = Some w
    /\ count_message (utf16 "Shortened new URL") (the_logs w) = 2%nat
    /\ total_clicks (shortUrls (ui w)) = 1.
Proof.
  assert (Hrun : exists w,
             run a_a_then_b sample_URL sample_origin a_session initial = Some w
             /\ length (shortUrls (ui w)) = 2%nat
             /\ count_message (utf16 "Short URL visited") (the_logs w) = 1%nat).
  { eexists. split; [vm_compute; reflexivity |]. split; reflexivity. }
  destruct Hrun as (w & Hrun & Hlen & Hvis).
  destruct (log_accounts_for_records a_a_then_b sample_URL sample_origin w)
    as [Hn Hc]; [exists a_session; exact Hrun |].
  exists w. split; [exact Hrun |]. split; [congruence |].
  rewrite <- Hc, Hvis. reflexivity.
Defined.

(** ** Visits *)

Lemma first_match_alter (l : list ShortUrl) (code : jsstring) (i : nat)
    (u : ShortUrl) :
  first_match l code i u ->
  first_match (alter incr_clickCount i l) code i (incr_clickCount u).
Proof.
  intros (Hi & Hc & Hb). split; [| split].
  - rewrite list_lookup_alter_eq, Hi. reflexivity.
  - exact Hc.
  - intros j y Hj Hlt. rewrite list_lookup_alter_ne in Hj by lia.
    eapply Hb; eauto.
Qed.

Lemma handleRedirect_visit (now : Z) (iso : jsstring) (w : World) (i : nat)
    (u : ShortUrl) :
  first_match (shortUrls (ui w)) (redirectCode (ui w)) i u ->
  now <= expiresAt u ->
  shortUrls (ui (handleRedirect now iso w))
  = alter incr_clickCount i (shortUrls (ui w))
  /\ redirectCode (ui (handleRedirect now iso w)) = redirectCode (ui w)
  /\ redirectResult (ui (handleRedirect now iso w))
     = Some (utf16 "Redirected to: " ++ originalUrl u).
Proof.
  intros Hm Hexp. unfold handleRedirect.
  rewrite (first_match_find _ _ _ _ Hm).
  replace (now >? expiresAt u) with false
    by (symmetry; rewrite Z.gtb_ltb; apply Z.ltb_ge; lia).
  auto.
Qed.

Lemma handleRedirect_expired (now : Z) (iso : jsstring) (w : World) (i : nat)
    (u : ShortUrl) :
  first_match (shortUrls (ui w)) (redirectCode (ui w)) i u ->
  expiresAt u < now ->
  shortUrls (ui (handleRedirect now iso w)) = shortUrls (ui w)
  /\ redirectResult (ui (handleRedirect now iso w))
     = Some (utf16 "This short URL has expired.").
Proof.
  intros Hm Hexp. unfold handleRedirect.
  rewrite (first_match_find _ _ _ _ Hm).
  replace (now >? expiresAt u) with true by (symmetry; apply Z.gtb_lt; lia).
  auto.
Qed.

Lemma handleRedirect_missing (now : Z) (iso : jsstring) (w : World) :
  Forall (fun u => shortCode u <> redirectCode (ui w)) (shortUrls (ui w)) ->
  shortUrls (ui (handleRedirect now iso w)) = shortUrls (ui w)
  /\ redirectResult (ui (handleRedirect now iso w))
     = Some (utf16 "Short URL not found.").
Proof.
  intros Hnone. unfold handleRedirect.
  rewrite (no_match_find _ _ Hnone). auto.
Qed.

Section Visits.

Variable rnd : nat -> Q.
Variable URL : jsstring -> option jsstring.
Variable origin : jsstring.

(** X5: submitting the redirect form [k] times for the code of a stored
    record, each time before it expires, adds exactly [k] to the click count
    of that record and leaves its other fields and every other record as
    they were. *)
Theorem visits_add_up (times : list Z) (iso : jsstring) :
  forall (w : World) (i : nat) (u : ShortUrl),
    first_match (shortUrls (ui w)) (redirectCode (ui w)) i u ->
    Forall (fun t => t <= expiresAt u) times ->
    exists w' u',
      run rnd URL origin (visits times iso) w = Some w'
      /\ shortUrls (ui w') !! i = Some u'
      /\ clickCount u' = clickCount u + Z.of_nat (length times)
      /\ shortCode u' = shortCode u /\ originalUrl u' = originalUrl u
      /\ createdAt u' = createdAt u /\ expiresAt u' = expiresAt u
      /\ forall j, j <> i -> shortUrls (ui w') !! j = shortUrls (ui w) !! j.
Proof.
  induction times as [|t times IH]; intros w i u Hm Hall.
  - exists w, u. destruct Hm as (Hi & _). simpl.
    repeat split; try assumption; try reflexivity. lia.
  - apply Forall_cons in Hall as [Ht Hall].
    destruct (handleRedirect_visit t iso w i u Hm Ht) as (Hs & Hc & _).
    destruct (IH (handleRedirect t iso w) i (incr_clickCount u))
      as (w' & u' & Hrun & Hi & Hclicks & H1 & H2 & H3 & H4 & Hothers).
    { rewrite Hs, Hc. apply first_match_alter, Hm. }
    { exact Hall. }
    exists w', u'. cbn [visits fmap list_fmap run dispatch].
    split; [exact Hrun |]. split; [exact Hi |].
    split; [rewrite Hclicks; simpl; lia |].
    repeat (split; [assumption |]).
    intros j Hj. rewrite (Hothers j Hj), Hs.
    apply list_lookup_alter_ne. congruence.
Qed.

(** X6: after an accepted submission at time [now] with validity [v], a
    redirect on the new code at time [t] counts one click and shows the
    stored URL when [t <= now + v * 60000], and reports the expiry, with the
    record left at no clicks, when [t] is later. *)
Theorem validity_window (fuel : nat) (now : Z) (iso : jsstring)
    (w : World) (url : jsstring) (v : Z) (code : jsstring) (pos : nat)
    (t : Z) (iso' : jsstring) :
  forallb is_whitespace (longUrl (ui w)) = false ->
  URL (longUrl (ui w)) = Some url ->
  validityMinutes (validity (ui w)) = Some v ->
  0 < v ->
  generateShortCode rnd fuel (existingCodes (shortUrls (ui w))) (randomPos w)
  = Some (code, pos) ->
  exists w' r w'',
    handleShorten rnd URL fuel now iso w = Some w'
    /\ shortUrls (ui w') = r :: shortUrls (ui w)
    /\ shortCode r = code /\ clickCount r = 0
    /\ run rnd URL origin [ChangeRedirectCode code; SubmitRedirect t iso'] w'
       = Some w''
    /\ (t <= now + v * 60000 ->
        shortUrls (ui w'') = incr_clickCount r :: shortUrls (ui w)
        /\ redirectResult (ui w'') = Some (utf16 "Redirected to: " ++ url))
    /\ (now + v * 60000 < t ->
        shortUrls (ui w'') = r :: shortUrls (ui w)
        /\ redirectResult (ui w'')
           = Some (utf16 "This short URL has expired.")).
Proof.
  intros Hws Hurl Hv Hpos Hgen.
  eexists _, _, _. split; [eapply handleShorten_accepts; eassumption |].
  cbn [ui logged shortUrls]. split; [reflexivity |].
  cbn [shortCode clickCount]. split; [reflexivity |]. split; [reflexivity |].
  split; [reflexivity |].
  match goal with
  | |- context [handleRedirect t iso' ?w1] =>
      assert (Hm : first_match (shortUrls (ui w1)) (redirectCode (ui w1)) 0%nat
                     {| shortCode := code; originalUrl := url;
                        createdAt := now; expiresAt := now + v * 60 * 1000;
                        clickCount := 0 |})
        by (split; [reflexivity |]; split; [reflexivity |];
            intros j y _ Hj; lia);
      split; intros Ht;
      [ destruct (handleRedirect_visit t iso' w1 _ _ Hm) as (-> & _ & ->);
        [cbn [expiresAt]; lia | split; reflexivity]
      | destruct (handleRedirect_expired t iso' w1 _ _ Hm) as (-> & ->);
        [cbn [expiresAt]; lia | split; reflexivity] ]
  end.
Qed.

(** X7: in every state a session reaches, with draws in the unit interval,
    a redirect on a text that is not six characters of [a-zA-Z0-9] (the
    empty text, a code with a space around it, ...) finds nothing: it shows
    "Short URL not found." and leaves the records as they were. *)
Theorem malformed_code_not_found (now : Z) (iso : jsstring) (w : World) :
  unit_interval rnd ->
  reachable rnd URL origin w ->
  length (redirectCode (ui w)) <> 6%nat
  \/ forallb is_alnum (redirectCode (ui w)) = false ->
  redirectResult (ui (handleRedirect now iso w))
  = Some (utf16 "Short URL not found.")
  /\ shortUrls (ui (handleRedirect now iso w)) = shortUrls (ui w).
Proof.
  intros Hu Hreach Hbad.
  pose proof (reachable_well_formed rnd URL origin w Hu Hreach) as Hall.
  destruct (handleRedirect_missing now iso w) as [Hs Hr]; [| auto].
  eapply Forall_impl; [exact Hall |].
  intros u (Hlen & Hal & _) Heq. rewrite <- Heq in Hbad.
  destruct Hbad as [Hbad | Hbad]; congruence.
Qed.

End Visits.

Lemma visits_add_up_witness :
  exists w' u',
    run zeros sample_URL sample_origin (visits [2000; 3000; 61000] iso0)
      (visiting aaaaaa) = Some w'
    /\ shortUrls (ui w') !! 0%nat = Some u'
    /\ clickCount u' = 4 + Z.of_nat 3
    /\ shortCode u' = aaaaaa
    /\ originalUrl u' = utf16 "https://example.com/"
    /\ createdAt u' = 1000 /\ expiresAt u' = 61000
    /\ forall j, j <> 0%nat ->
                 shortUrls (ui w') !! j = [sample_record] !! j.
Proof.
  apply (visits_add_up zeros sample_URL sample_origin [2000; 3000; 61000] iso0
           (visiting aaaaaa) 0%nat sample_record).
  - split; [reflexivity |]. split; [reflexivity |]. intros j y _ Hj. lia.
  - repeat constructor; simpl; lia.
Defined.

Lemma validity_window_witness :
  exists w' r w'',
    handleShorten zeros sample_URL 1 1000 iso0 (typed example_com (utf16 "1"))
    = Some w'
    /\ shortUrls (ui w') = r :: []
    /\ shortCode r = aaaaaa /\ clickCount r = 0
    /\ run zeros sample_URL sample_origin
         [ChangeRedirectCode aaaaaa; SubmitRedirect 61001 iso1] w'
       = Some w''
    /\ (61001 <= 1000 + 1 * 60000 ->
        shortUrls (ui w'') = incr_clickCount r :: []
        /\ redirectResult (ui w'')
           = Some (utf16 "Redirected to: " ++ utf16 "https://example.com/"))
    /\ (1000 + 1 * 60000 < 61001 ->
        shortUrls (ui w'') = r :: []
        /\ redirectResult (ui w'')
           = Some (utf16 "This short URL has expired.")).
Proof.
  apply (validity_window zeros sample_URL sample_origin 1 1000 iso0
           (typed example_com (utf16 "1"))
           (utf16 "https://example.com/") 1 aaaaaa 6 61001 iso1).
  - reflexivity.
  - vm_compute. reflexivity.
  - reflexivity.
  - lia.
  - vm_compute. reflexivity.
Defined.

Lemma malformed_code_not_found_witness :
  exists w,
    run a_a_then_b sample_URL sample_origin
      (two_shortens ++ [ChangeRedirectCode (utf16 " aaaaaa")]) initial = Some w
    /\ redirectResult (ui (handleRedirect 3000 iso1 w))
       = Some (utf16 "Short URL not found.")
    /\ shortUrls (ui (handleRedirect 3000 iso1 w)) = shortUrls (ui w).
Proof.
  assert (Hrun : exists w,
             run a_a_then_b sample_URL sample_origin
               (two_shortens ++ [ChangeRedirectCode (utf16 " aaaaaa")]) initial
             = Some w
             /\ redirectCode (ui w) = utf16 " aaaaaa").
  { eexists. split; [vm_compute; reflexivity | reflexivity]. }
  destruct Hrun as (w & Hrun & Hcode).
  exists w. split; [exact Hrun |].
  apply (malformed_code_not_found a_a_then_b sample_URL sample_origin 3000 iso1 w).
  - intros i. unfold a_a_then_b. destruct (i <? 12)%nat;
      split; reflexivity || discriminate.
  - eexists. exact Hrun.
  - left. rewrite Hcode. discriminate.
Defined.

(** ** Validity texts *)

Lemma digit_bounds (c : N) : is_digit c = true <-> (48 <= c <= 57)%N.
Proof.
  unfold is_digit. rewrite andb_true_iff, !N.leb_le. reflexivity.
Qed.

Lemma digit_not_whitespace (c : N) :
  is_digit c = true -> is_whitespace c = false.
Proof.
  intros H. apply digit_bounds in H. unfold is_whitespace.
  repeat match goal with
         | |- context [(c =? ?k)%N] =>
             replace (c =? k)%N with false by (symmetry; apply N.eqb_neq; lia)
         end.
  replace (0x2000 <=? c)%N with false by (symmetry; apply N.leb_gt; lia).
  reflexivity.
Qed.

Lemma trimStart_whitespace (ws s : jsstring) :
  forallb is_whitespace ws = true -> trimStart (ws ++ s) = trimStart s.
Proof.
  induction ws as [|c ws IH]; simpl; [reflexivity |].
  intros H. apply andb_true_iff in H as [Hc Hws]. rewrite Hc. auto.
Qed.

Lemma digit_prefix_digits (s : jsstring) :
  forallb is_digit (digit_prefix s) = true.
Proof.
  induction s as [|c s IH]; simpl; [reflexivity |].
  destruct (is_digit c) eqn:E; simpl; [rewrite E; exact IH | reflexivity].
Qed.

Lemma digit_prefix_app (ds rest : jsstring) :
  forallb is_digit ds = true ->
  rest = [] \/ (exists c r, rest = c :: r /\ is_digit c = false) ->
  digit_prefix (ds ++ rest) = ds.
Proof.
  intros Hds Hrest. induction ds as [|d ds IH]; simpl.
  - destruct Hrest as [-> | (c & r & -> & Hc)]; simpl; [reflexivity |].
    rewrite Hc. reflexivity.
  - simpl in Hds. apply andb_true_iff in Hds as [Hd Hds].
    rewrite Hd, IH by assumption. reflexivity.
Qed.

Lemma digits_value_snoc (ds : jsstring) (d : N) :
  digits_value (ds ++ [d]) = digits_value ds * 10 + (Z.of_N d - 48).
Proof. unfold digits_value. rewrite foldl_app. reflexivity. Qed.

Lemma digits_value_nonneg (ds : jsstring) :
  forallb is_digit ds = true -> 0 <= digits_value ds.
Proof.
  induction ds as [|d ds IH] using rev_ind; intros H; [reflexivity |].
  rewrite forallb_app in H. apply andb_true_iff in H as [Hds Hd].
  simpl in Hd. rewrite andb_true_r in Hd. apply digit_bounds in Hd.
  rewrite digits_value_snoc. specialize (IH Hds). lia.
Qed.

(** Reading digits: white space in front and anything that does not start
    with a digit behind are ignored. *)
Lemma parseInt_digit_run (ws ds rest : jsstring) :
  forallb is_whitespace ws = true ->
  ds <> [] ->
  forallb is_digit ds = true ->
  rest = [] \/ (exists c r, rest = c :: r /\ is_digit c = false) ->
  parseInt (ws ++ ds ++ rest) = Some (digits_value ds).
Proof.
  intros Hws Hne Hds Hrest. unfold parseInt.
  rewrite trimStart_whitespace by exact Hws.
  destruct ds as [|d ds]; [congruence |].
  pose proof Hds as Hall. simpl in Hds.
  apply andb_true_iff in Hds as [Hd Hds'].
  cbn [app trimStart]. rewrite (digit_not_whitespace d Hd).
  pose proof (proj1 (digit_bounds d) Hd) as Hb.
  replace (d =? 0x2D)%N with false by (symmetry; apply N.eqb_neq; lia).
  replace (d =? 0x2B)%N with false by (symmetry; apply N.eqb_neq; lia).
  change (d :: ds ++ rest) with ((d :: ds) ++ rest).
  rewrite (digit_prefix_app (d :: ds) rest Hall Hrest).
  f_equal. lia.
Qed.

Lemma digits_of_spec (fuel : nat) : forall n acc,
  0 <= n < 2 ^ (Z.of_nat fuel + 1) ->
  exists ds, digits_of fuel n acc = ds ++ acc /\ ds <> []
             /\ forallb is_digit ds = true /\ digits_value ds = n.
Proof.
  assert (Hlast : forall n acc, 0 <= n < 10 ->
            exists ds, Z.to_N (0x30 + n mod 10) :: acc = ds ++ acc /\ ds <> []
                       /\ forallb is_digit ds = true /\ digits_value ds = n).
  { intros n acc Hn. exists [Z.to_N (0x30 + n mod 10)].
    rewrite Z.mod_small by lia.
    split; [reflexivity |]. split; [discriminate |]. split.
    - simpl. rewrite andb_true_r. apply digit_bounds. lia.
    - unfold digits_value. simpl. lia. }
  induction fuel as [|fuel IH]; intros n acc Hn; cbn [digits_of].
  - apply Hlast. change (2 ^ (Z.of_nat 0 + 1)) with 2 in Hn. lia.
  - destruct (n <? 10) eqn:E.
    + apply Hlast. apply Z.ltb_lt in E. lia.
    + apply Z.ltb_ge in E.
      assert (Hpow : 2 ^ (Z.of_nat (S fuel) + 1) = 2 * 2 ^ (Z.of_nat fuel + 1)).
      { rewrite <- Z.pow_succ_r by lia. f_equal. lia. }
      destruct (IH (n / 10) (Z.to_N (0x30 + n mod 10) :: acc))
        as (ds & -> & Hne & Hds & Hval).
      { split; [apply Z.div_pos; lia |].
        apply Z.div_lt_upper_bound; lia. }
      exists (ds ++ [Z.to_N (0x30 + n mod 10)]).
      rewrite <- app_assoc. split; [reflexivity |].
      split; [destruct ds; discriminate |]. split.
      * rewrite forallb_app, Hds. simpl. rewrite andb_true_r.
        apply digit_bounds. pose proof (Z.mod_pos_bound n 10). lia.
      * rewrite digits_value_snoc, Hval.
        pose proof (Z.mod_pos_bound n 10).
        pose proof (Z.div_mod n 10). lia.
Qed.

Lemma Number_toString_digits (n : Z) :
  0 <= n ->
  Number_toString n <> [] /\ forallb is_digit (Number_toString n) = true
  /\ digits_value (Number_toString n) = n.
Proof.
  intros Hn. unfold Number_toString.
  replace (n <? 0) with false by (symmetry; apply Z.ltb_ge; lia).
  destruct (digits_of_spec (Z.to_nat (Z.log2 n)) n []) as (ds & E & H).
  - rewrite Z2Nat.id by apply Z.log2_nonneg.
    split; [lia |].
    destruct (Z.eq_dec n 0) as [-> | Hpos]; [reflexivity |].
    rewrite Z.add_1_r. apply Z.log2_spec. lia.
  - rewrite app_nil_r in E. rewrite E. exact H.
Qed.

Section Validity.

Variable rnd : nat -> Q.
Variable URL : jsstring -> option jsstring.

(** X8: a validity typed as the decimal digits of a positive integer [n],
    with white space before it and with text after it that does not begin
    with a digit (a unit, a fraction, ...) or without, is taken as [n]
    minutes: as long as [now + n * 60000] does not exceed [2^53], an accepted
    submission gives [expiresAt = now + n * 60000]. *)
Theorem validity_in_digits (fuel : nat) (now : Z) (iso : jsstring)
    (w : World) (url : jsstring) (n : Z) (ws rest : jsstring)
    (code : jsstring) (pos : nat) :
  forallb is_whitespace (longUrl (ui w)) = false ->
  URL (longUrl (ui w)) = Some url ->
  validity (ui w) = ws ++ Number_toString n ++ rest ->
  forallb is_whitespace ws = true ->
  rest = [] \/ (exists c r, rest = c :: r /\ is_digit c = false) ->
  0 < n ->
  0 <= now ->
  now + n * 60000 <= 2 ^ 53 ->
  generateShortCode rnd fuel (existingCodes (shortUrls (ui w))) (randomPos w)
  = Some (code, pos) ->
  exists w' r,
    handleShorten rnd URL fuel now iso w = Some w'
    /\ shortUrls (ui w') = r :: shortUrls (ui w)
    /\ createdAt r = now
    /\ expiresAt r = now + n * 60000
    /\ Binary64.expiry now (Binary64.validityMinutes64 (validity (ui w)))
       = Binary64.Finite (expiresAt r).
Proof.
  intros Hws Hurl Hval Hsp Hrest Hn Hnow Hsafe Hgen.
  destruct (Number_toString_digits n) as (Hne & Hds & Hv); [lia |].
  assert (Hm : validityMinutes (validity (ui w)) = Some n).
  { unfold validityMinutes. rewrite Hval.
    rewrite (parseInt_digit_run ws _ rest Hsp Hne Hds Hrest), Hv.
    destruct (ws ++ Number_toString n ++ rest) as [|c l] eqn:E;
      [| reflexivity].
    apply app_eq_nil in E as [_ E]. apply app_eq_nil in E as [E _].
    congruence. }
  eexists _, _.
  split; [eapply handleShorten_accepts; eassumption |].
  cbn [ui logged shortUrls].
  split; [reflexivity |]. split; [reflexivity |].
  cbn [expiresAt]. split; [lia |].
  rewrite (validityMinutes64_safe _ _ Hm) by lia.
  apply expiry_safe; assumption.
Qed.

(** X9: a validity that starts, after white space, with a minus sign is
    never accepted, whatever follows the sign: with a URL that parses, the
    submission is refused with "Invalid validity entered". *)
Theorem negative_validity_refused (fuel : nat) (now : Z) (iso : jsstring)
    (w : World) (rest : jsstring) :
  forallb is_whitespace (longUrl (ui w)) = false ->
  is_Some (URL (longUrl (ui w))) ->
  trimStart (validity (ui w)) = 0x2D%N :: rest ->
  refused_with
    (entry iso (utf16 "Invalid validity entered")
       [("validity"%string, Str (validity (ui w)))])
    w (handleShorten rnd URL fuel now iso w).
Proof.
  intros Hws [url Hurl] Hminus. unfold handleShorten.
  destruct (truthy (trim (longUrl (ui w)))) eqn:Ht;
    [| apply trim_blank in Ht; congruence].
  simpl. rewrite Hurl. unfold validityMinutes.
  destruct (validity (ui w)) as [|c v] eqn:Hv; [discriminate |].
  simpl truthy. cbv iota. unfold parseInt. rewrite Hminus.
  rewrite N.eqb_refl.
  pose proof (digits_value_nonneg _ (digit_prefix_digits rest)) as Hnn.
  destruct (digit_prefix rest) as [|d ds]; [apply refused_logged |].
  replace (-1 * digits_value (d :: ds) <=? 0) with true
    by (symmetry; apply Z.leb_le; lia).
  apply refused_logged.
Qed.

End Validity.

Lemma validity_in_digits_witness :
  exists w' r,
    handleShorten zeros sample_URL 1 1000 iso0
      (typed example_com (utf16 " 45 minutes")) = Some w'
    /\ shortUrls (ui w') = r :: []
    /\ createdAt r = 1000
    /\ expiresAt r = 1000 + 45 * 60000
    /\ Binary64.expiry 1000 (Binary64.validityMinutes64 (utf16 " 45 minutes"))
       = Binary64.Finite (expiresAt r).
Proof.
  apply (validity_in_digits zeros sample_URL 1 1000 iso0
           (typed example_com (utf16 " 45 minutes"))
           (utf16 "https://example.com/") 45 (utf16 " ") (utf16 " minutes")
           aaaaaa 6).
  - reflexivity.
  - vm_compute. reflexivity.
  - reflexivity.
  - reflexivity.
  - right. eexists _, _. split; reflexivity.
  - lia.
  - lia.
  - vm_compute. discriminate.
  - vm_compute. reflexivity.
Defined.

Lemma negative_validity_refused_witness :
  refused_with
    (entry iso0 (utf16 "Invalid validity entered")
       [("validity"%string, Str (utf16 " -0"))])
    (typed example_com (utf16 " -0"))
    (handleShorten zeros sample_URL 1 1000 iso0
       (typed example_com (utf16 " -0"))).
Proof.
  apply (negative_validity_refused zeros sample_URL 1 1000 iso0
           (typed example_com (utf16 " -0")) (utf16 "0")).
  - reflexivity.
  - vm_compute. eauto.
  - reflexivity.
Defined.

(** ** The table *)

Lemma round_minutes (d : Z) :
  Math_round (inject_Z d / inject_Z 60000) = (2 * d + 60000) / 120000.
Proof.
  unfold Math_round, Qdiv, Qmult, Qplus, Qinv, inject_Z, Qfloor. simpl.
  f_equal. lia.
Qed.

Lemma minutesLeft_bounds (now : Z) (u : ShortUrl) :
  now <= expiresAt u ->
  minutesLeft now u
  = Math_round (inject_Z (expiresAt u - now) / inject_Z 60000)
  /\ 0 <= minutesLeft now u
  /\ 60000 * minutesLeft now u - 30000 <= expiresAt u - now
     < 60000 * minutesLeft now u + 30000.
Proof.
  intros H. unfold minutesLeft. rewrite round_minutes.
  assert (0 <= (2 * (expiresAt u - now) + 60000) / 120000)
    by (apply Z.div_pos; lia).
  rewrite Z.max_r by assumption.
  split; [reflexivity |]. split; [assumption |].
  pose proof (Z.div_mod (2 * (expiresAt u - now) + 60000) 120000).
  pose proof (Z.mod_pos_bound (2 * (expiresAt u - now) + 60000) 120000).
  lia.
Qed.

Lemma minutes_label_not_Expired (x : jsstring) :
  x ++ utf16 " min" <> utf16 "Expired".
Proof.
  intros H. apply (f_equal (@rev N)) in H. rewrite rev_app_distr in H.
  discriminate H.
Qed.

(** X10: for a record that has not expired, with the clock and the expiry
    between 0 and [2^53], the "Expires In" cell reads "[m] min" where [m] is
    the time left rounded to the nearest minute, half a minute going up; [m]
    is never negative, so that the [Math.max] in the cell has nothing to
    do. *)
Theorem minutes_shown (now : Z) (u : ShortUrl) :
  0 <= now ->
  now <= expiresAt u ->
  expiresAt u <= 2 ^ 53 ->
  expiresIn now u = Number_toString (minutesLeft now u) ++ utf16 " min"
  /\ minutesLeft now u
     = Math_round (inject_Z (expiresAt u - now) / inject_Z 60000)
  /\ 0 <= minutesLeft now u
  /\ 60000 * minutesLeft now u - 30000 <= expiresAt u - now
     < 60000 * minutesLeft now u + 30000.
Proof.
  intros _ H _. split; [| apply minutesLeft_bounds; exact H].
  unfold expiresIn.
  replace (now >? expiresAt u) with false
    by (symmetry; rewrite Z.gtb_ltb; apply Z.ltb_ge; lia).
  reflexivity.
Qed.

Lemma minutes_shown_witness :
  expiresIn 31000 sample_record = utf16 "1 min"
  /\ minutesLeft 31000 sample_record
     = Math_round (inject_Z (61000 - 31000) / inject_Z 60000)
  /\ 0 <= minutesLeft 31000 sample_record
  /\ 60000 * minutesLeft 31000 sample_record - 30000 <= 61000 - 31000
     < 60000 * minutesLeft 31000 sample_record + 30000.
Proof.
  apply (minutes_shown 31000 sample_record).
  - lia.
  - simpl. lia.
  - vm_compute. discriminate.
Defined.

Section Table.

Variable rnd : nat -> Q.
Variable URL : jsstring -> option jsstring.
Variable origin : jsstring.

(** X11: a record created by an accepted submission at time [now] with a
    validity of [v] minutes, [now + v * 60000] not exceeding [2^53], shows
    "[v] min" when rendered at the time of its creation, still shows "0 min"
    and not "Expired" at the very time it expires, and shows "Expired" at
    every later time. *)
Theorem countdown_of_a_record (fuel : nat) (now : Z) (iso : jsstring)
    (w : World) (url : jsstring) (v : Z) (code : jsstring) (pos : nat) :
  forallb is_whitespace (longUrl (ui w)) = false ->
  URL (longUrl (ui w)) = Some url ->
  validityMinutes (validity (ui w)) = Some v ->
  0 < v ->
  0 <= now ->
  now + v * 60000 <= 2 ^ 53 ->
  generateShortCode rnd fuel (existingCodes (shortUrls (ui w))) (randomPos w)
  = Some (code, pos) ->
  exists w' r,
    handleShorten rnd URL fuel now iso w = Some w'
    /\ shortUrls (ui w') = r :: shortUrls (ui w)
    /\ expiresIn now r = Number_toString v ++ utf16 " min"
    /\ expiresIn (expiresAt r) r = utf16 "0 min"
    /\ forall t, expiresAt r < t -> expiresIn t r = utf16 "Expired".
Proof.
  intros Hws Hurl Hv Hpos _ _ Hgen.
  eexists _, _. split; [eapply handleShorten_accepts; eassumption |].
  cbn [ui logged shortUrls]. split; [reflexivity |].
  unfold expiresIn, minutesLeft. rewrite !round_minutes.
  cbn [expiresAt]. split; [| split].
  - replace (now >? now + v * 60 * 1000) with false
      by (symmetry; rewrite Z.gtb_ltb; apply Z.ltb_ge; lia).
    replace ((2 * (now + v * 60 * 1000 - now) + 60000) / 120000) with v.
    + rewrite Z.max_r by lia. reflexivity.
    + apply Z.div_unique with (r := 60000); lia.
  - replace (now + v * 60 * 1000 >? now + v * 60 * 1000) with false
      by (symmetry; rewrite Z.gtb_ltb; apply Z.ltb_ge; lia).
    rewrite Z.sub_diag. reflexivity.
  - intros t Ht.
    replace (t >? now + v * 60 * 1000) with true
      by (symmetry; apply Z.gtb_lt; lia).
    reflexivity.
Qed.

(** X12: in every state a session reaches, a row of the table is marked
    expired (by its class and by its "Expires In" cell) exactly when a
    redirect on the code of that row at the same instant reports "This short
    URL has expired.". *)
Theorem expired_row_iff_expired_redirect (now : Z) (iso : jsstring)
    (shown : option jsstring) (w : World) (i : nat) (u : ShortUrl) :
  reachable rnd URL origin w ->
  shortUrls (ui w) !! i = Some u ->
  redirectCode (ui w) = shortCode u ->
  (expiresCell (row origin now shown u) = utf16 "Expired"
   <-> redirectResult (ui (handleRedirect now iso w))
       = Some (utf16 "This short URL has expired."))
  /\ (className (row origin now shown u) = utf16 "expired"
      <-> redirectResult (ui (handleRedirect now iso w))
          = Some (utf16 "This short URL has expired.")).
Proof.
  intros Hreach Hi Hcode.
  pose proof (reachable_NoDup rnd URL origin w Hreach) as Hnd.
  pose proof (first_match_unique _ _ _ Hnd Hi) as Hm. rewrite <- Hcode in Hm.
  cbn [expiresCell className row]. unfold expiresIn.
  destruct (now >? expiresAt u) eqn:E.
  - apply Z.gtb_lt in E.
    destruct (handleRedirect_expired now iso w i u Hm) as (_ & ->); [lia |].
    split; split; reflexivity.
  - rewrite Z.gtb_ltb in E. apply Z.ltb_ge in E.
    destruct (handleRedirect_visit now iso w i u Hm E) as (_ & _ & ->).
    split; split; intros H; exfalso.
    + exact (minutes_label_not_Expired _ H).
    + discriminate H.
    + discriminate H.
    + discriminate H.
Qed.

(** X13: in every state a session reaches, clicking "Copy" on a row where
    [navigator.clipboard] exists changes no record and makes that row, and
    no other, read "Copied!", until the timer fires and every row reads
    "Copy" again; the clipboard then holds exactly the short URL the row
    displays if the write is granted, and what it held before if it is
    rejected.  Where [navigator.clipboard] does not exist the handler throws
    and the page stays as it was. *)
Theorem copy_marks_its_row (now : Z) (iso : jsstring) (w : World) (i : nat)
    (u : ShortUrl) (access : Clipboard) :
  reachable rnd URL origin w ->
  shortUrls (ui w) !! i = Some u ->
  match handleCopy origin access (shortCode u) iso w with
  | None =>
      access = ClipboardMissing
      /\ dispatch rnd URL origin (ClickCopy access (shortCode u) iso) w
         = Some w
  | Some w' =>
      access <> ClipboardMissing
      /\ dispatch rnd URL origin (ClickCopy access (shortCode u) iso) w
         = Some w'
      /\ clipboard w'
         = match access with
           | ClipboardWrites =>
               Some (shortUrlCell (row origin now (copied (ui w')) u))
           | _ => clipboard w
           end
      /\ shortUrls (ui w') = shortUrls (ui w)
      /\ (forall j u',
            shortUrls (ui w') !! j = Some u' ->
            copyLabel (row origin now (copied (ui w')) u') = utf16 "Copied!"
            <-> j = i)
      /\ exists w'',
          dispatch rnd URL origin CopiedTimeout w' = Some w''
          /\ forall u', copyLabel (row origin now (copied (ui w'')) u')
                        = utf16 "Copy"
  end.
Proof.
  intros Hreach Hi.
  pose proof (reachable_NoDup rnd URL origin w Hreach) as Hnd.
  assert (Hmark : forall j u',
             shortUrls (ui w) !! j = Some u' ->
             (if decide (Some (shortCode u) = Some (shortCode u'))
              then utf16 "Copied!" else utf16 "Copy") = utf16 "Copied!"
             <-> j = i).
  { intros j u' Hj.
    destruct (decide (Some (shortCode u) = Some (shortCode u'))) as [E|E].
    - split; [intros _ | reflexivity].
      eapply NoDup_lookup; [exact Hnd | |]; unfold codes;
        rewrite list_lookup_fmap.
      + rewrite Hj. reflexivity.
      + rewrite Hi. simpl. congruence.
    - split; [discriminate |].
      intros ->. rewrite Hi in Hj. congruence. }
  destruct access; cbn [handleCopy dispatch default].
  - split; reflexivity.
  - split; [discriminate |]. split; [reflexivity |].
    cbn [ui logged clipboard shortUrls copied row copyLabel].
    split; [reflexivity |]. split; [reflexivity |].
    split; [exact Hmark |].
    eexists. split; [reflexivity |]. intros u'. reflexivity.
  - split; [discriminate |]. split; [reflexivity |].
    cbn [ui logged clipboard shortUrls copied row copyLabel shortUrlCell].
    split; [reflexivity |]. split; [reflexivity |].
    split; [exact Hmark |].
    eexists. split; [reflexivity |]. intros u'. reflexivity.
Qed.

End Table.

Lemma countdown_of_a_record_witness :
  exists w' r,
    handleShorten zeros sample_URL 1 1000 iso0
      (typed example_com (utf16 "45")) = Some w'
    /\ shortUrls (ui w') = r :: []
    /\ expiresIn 1000 r = Number_toString 45 ++ utf16 " min"
    /\ expiresIn (expiresAt r) r = utf16 "0 min"
    /\ forall t, expiresAt r < t -> expiresIn t r = utf16 "Expired".
Proof.
  apply (countdown_of_a_record zeros sample_URL 1 1000 iso0
           (typed example_com (utf16 "45"))
           (utf16 "https://example.com/") 45 aaaaaa 6).
  - reflexivity.
  - vm_compute. reflexivity.
  - reflexivity.
  - lia.
  - lia.
  - vm_compute. discriminate.
  - vm_compute. reflexivity.
Defined.

Lemma expired_row_iff_expired_redirect_witness :
  exists w u,
    run a_a_then_b sample_URL sample_origin
      (two_shortens ++ [ChangeRedirectCode aaaaaa]) initial = Some w
    /\ shortUrls (ui w) !! 1%nat = Some u
    /\ expiresCell (row sample_origin 1801001 None u) = utf16 "Expired"
    /\ redirectResult (ui (handleRedirect 1801001 iso1 w))
       = Some (utf16 "This short URL has expired.").
Proof.
  assert (Hrun : exists w u,
             run a_a_then_b sample_URL sample_origin
               (two_shortens ++ [ChangeRedirectCode aaaaaa]) initial = Some w
             /\ shortUrls (ui w) !! 1%nat = Some u
             /\ redirectCode (ui w) = shortCode u
             /\ expiresCell (row sample_origin 1801001 None u) = utf16 "Expired").
  { eexists _, _. split; [vm_compute; reflexivity |].
    split; [reflexivity |]. split; reflexivity. }
  destruct Hrun as (w & u & Hrun & Hu & Hcode & Hcell).
  exists w, u. split; [exact Hrun |]. split; [exact Hu |].
  split; [exact Hcell |].
  apply (proj1 (expired_row_iff_expired_redirect a_a_then_b sample_URL
                  sample_origin 1801001 iso1 None w 1 u
                  (ex_intro _ _ Hrun) Hu Hcode)).
  exact Hcell.
Defined.

Lemma copy_marks_its_row_witness :
  exists w u w',
    run a_a_then_b sample_URL sample_origin two_shortens initial = Some w
    /\ shortUrls (ui w) !! 0%nat = Some u
    /\ handleCopy sample_origin ClipboardWrites (shortCode u) iso1 w = Some w'
    /\ clipboard w' = Some (utf16 "http://localhost:3000/s/bbbbbb")
    /\ shortUrls (ui w') = shortUrls (ui w).
Proof.
  assert (Hrun : exists w u,
             run a_a_then_b sample_URL sample_origin two_shortens initial
             = Some w
             /\ shortUrls (ui w) !! 0%nat = Some u
             /\ shortUrlCell (row sample_origin 0 (Some (shortCode u)) u)
                = utf16 "http://localhost:3000/s/bbbbbb").
  { eexists _, _. split; [vm_compute; reflexivity |].
    split; reflexivity. }
  destruct Hrun as (w & u & Hrun & Hu & Hcell).
  pose proof (copy_marks_its_row a_a_then_b sample_URL sample_origin 0 iso1
                w 0 u ClipboardWrites (ex_intro _ _ Hrun) Hu) as H.
  cbn [handleCopy] in H. destruct H as (_ & _ & Hclip & Hrecs & _).
  eexists w, u, _. split; [exact Hrun |]. split; [exact Hu |].
  split; [reflexivity |]. split; [| exact Hrecs].
  rewrite Hclip. cbn [ui logged copied]. rewrite Hcell. reflexivity.
Defined.

(** ** Snapshots of the log *)

(** X14: a snapshot is frozen at the time [getLogs] is called: a later [log]
    lengthens the log by its entry and leaves the snapshot as it was, and a
    second [getLogs] returns yet another array, different from the first and
    from the log, with the same entries. *)
Theorem snapshot_is_frozen (σ : store) (iso msg : jsstring)
    (ctx : option (list (string * value))) :
  let r := (getLogs σ).1 in
  let σ1 := (getLogs σ).2 in
  let r2 := (getLogs σ1).1 in
  let σ2 := (getLogs σ1).2 in
  deref (log iso msg ctx σ1) r = deref σ logs
  /\ deref (log iso msg ctx σ1) logs
     = deref σ logs
       ++ [ {| timestamp := iso; message := msg; context := ctx |} ]
  /\ r2 <> r /\ r2 <> logs
  /\ deref σ2 r2 = deref σ logs
  /\ deref σ2 r = deref σ logs
  /\ deref σ2 logs = deref σ logs.
Proof.
  intros r σ1 r2 σ2.
  destruct (getLogs_fresh σ) as [Hr Hnone]. fold r in Hr, Hnone.
  destruct (getLogs_fresh σ1) as [Hr2 Hnone2]. fold r2 in Hr2, Hnone2.
  assert (H1 : σ1 = <[ r := deref σ logs ]> σ) by reflexivity.
  assert (H2 : σ2 = <[ r2 := deref σ1 logs ]> σ1) by reflexivity.
  assert (Hlogs1 : deref σ1 logs = deref σ logs).
  { unfold deref. rewrite H1, lookup_insert_ne by exact Hr. reflexivity. }
  assert (Hr1 : deref σ1 r = deref σ logs).
  { unfold deref at 1. rewrite H1, lookup_insert_eq. reflexivity. }
  assert (Hne : r2 <> r).
  { intros E. rewrite E, H1, lookup_insert_eq in Hnone2. discriminate. }
  split.
  { unfold log, deref at 1. rewrite lookup_insert_ne by congruence.
    exact Hr1. }
  split.
  { unfold log, deref at 1. rewrite lookup_insert_eq, Hlogs1. reflexivity. }
  split; [exact Hne |]. split; [exact Hr2 |].
  split.
  { unfold deref at 1. rewrite H2, lookup_insert_eq. exact Hlogs1. }
  split.
  { unfold deref at 1. rewrite H2, lookup_insert_ne by exact Hne.
    exact Hr1. }
  unfold deref at 1. rewrite H2, lookup_insert_ne by exact Hr2.
  exact Hlogs1.
Qed.

(** ** What the page shows *)

Lemma truthy_message (lit rest : jsstring) :
  truthy lit = true -> truthy (lit ++ rest) = true.
Proof. destruct lit; [discriminate | reflexivity]. Qed.

Section Shown.

Variable rnd : nat -> Q.
Variable URL : jsstring -> option jsstring.
Variable origin : jsstring.

(** Only a redirect writes the result message, and never an empty one. *)
Lemma dispatch_redirectResult (e : Event) (w w' : World) :
  dispatch rnd URL origin e w = Some w' ->
  (redirectResult (ui w') = redirectResult (ui w)
   /\ forall now iso, e <> SubmitRedirect now iso)
  \/ (exists m, redirectResult (ui w') = Some m /\ truthy m = true).
Proof.
  destruct e as [v|v|v|fuel now iso|access code iso| |now iso| ]; simpl;
    intros H;
    try (injection H as <-; left; split; [reflexivity | discriminate]).
  - left. split; [| discriminate]. unfold handleShorten in H.
    destruct (negb _); [injection H as <-; reflexivity |].
    destruct (URL _); [| injection H as <-; reflexivity].
    destruct (validityMinutes _) as [m|]; [| injection H as <-; reflexivity].
    destruct (m <=? 0); [injection H as <-; reflexivity |].
    destruct (generateShortCode _ _ _ _) as [[code pos]|]; [| discriminate].
    injection H as <-. reflexivity.
  - injection H as <-. left. split; [| discriminate].
    destruct access; reflexivity.
  - injection H as <-. right. unfold handleRedirect.
    destruct (list_find _ _) as [[i found]|];
      [destruct (now >? expiresAt found) |];
      eexists; (split; [reflexivity |]); reflexivity.
Qed.

Lemma run_result_ok (es : list Event) (w w' : World) :
  result_ok w -> run rnd URL origin es w = Some w' -> result_ok w'.
Proof.
  apply (run_invariant rnd URL origin result_ok).
  intros e w0 w1 H0 Hd. unfold result_ok in *.
  destruct (dispatch_redirectResult e w0 w1 Hd) as [[-> _] | (m & -> & Hm)];
    assumption.
Qed.

Lemma run_result_stays (es : list Event) (w w' : World) :
  is_Some (redirectResult (ui w)) ->
  run rnd URL origin es w = Some w' ->
  is_Some (redirectResult (ui w')).
Proof.
  apply (run_invariant rnd URL origin
           (fun w => is_Some (redirectResult (ui w)))).
  intros e w0 w1 H0 Hd.
  destruct (dispatch_redirectResult e w0 w1 Hd) as [[-> _] | (m & -> & Hm)];
    eauto.
Qed.

Lemma run_result_after_redirect (es : list Event) : forall w w' now iso,
  run rnd URL origin es w = Some w' ->
  SubmitRedirect now iso ∈ es ->
  is_Some (redirectResult (ui w')).
Proof.
  induction es as [|e es IH]; intros w w' now iso Hrun Hin.
  - apply elem_of_nil in Hin. contradiction.
  - simpl in Hrun.
    destruct (dispatch rnd URL origin e w) as [w1|] eqn:Hd; [| discriminate].
    apply elem_of_cons in Hin as [<- | Hin].
    + apply (run_result_stays es w1 w'); [| exact Hrun].
      destruct (dispatch_redirectResult _ _ _ Hd) as [[_ Hne] | (m & -> & _)];
        [exfalso; eapply Hne; reflexivity | eauto].
    + eapply IH; eauto.
Qed.

Lemma panel_of_result (t : Z) (w : World) :
  result_ok w -> resultPanel (render origin t w).1 = redirectResult (ui w).
Proof.
  unfold result_ok, render. intros H.
  destruct (showLogs (ui w)); cbn [fst resultPanel];
    destruct (redirectResult (ui w)) as [m|]; try reflexivity;
    rewrite H; reflexivity.
Qed.

(** X15: the result panel shows the outcome of the last redirect and, once
    a redirect has been submitted, is never hidden again: from a reachable
    state, after any further events, the panel is shown if it was shown
    before or if a redirect was among the events, and it then holds the
    stored result message. *)
Theorem result_panel_stays (es : list Event) (w w' : World) (t t' : Z) :
  reachable rnd URL origin w ->
  run rnd URL origin es w = Some w' ->
  resultPanel (render origin t' w').1 = redirectResult (ui w')
  /\ (is_Some (resultPanel (render origin t w).1)
      \/ (exists now iso, SubmitRedirect now iso ∈ es) ->
      is_Some (resultPanel (render origin t' w').1)).
Proof.
  intros [es0 Hreach] Hrun.
  assert (Hok : result_ok w)
    by (eapply run_result_ok; [| exact Hreach]; exact I).
  assert (Hok' : result_ok w') by (eapply run_result_ok; eauto).
  rewrite (panel_of_result t' w' Hok'), (panel_of_result t w Hok).
  split; [reflexivity |].
  intros [Hshown | (now & iso & Hin)].
  - eapply run_result_stays; eauto.
  - eapply run_result_after_redirect; eauto.
Qed.

(** X16: rendering is a view of the state: it changes neither the component
    state nor the log, the rows come one per record in the order of the
    collection with the code of the record as key, so that in every state a
    session reaches the keys are pairwise distinct, and the log view, when
    toggled on, lists exactly the entries of the log in order. *)
Theorem render_is_a_view (now : Z) (w : World) :
  reachable rnd URL origin w ->
  ui (render origin now w).2 = ui w
  /\ the_logs (render origin now w).2 = the_logs w
  /\ key <$> rows (render origin now w).1 = codes w
  /\ NoDup (key <$> rows (render origin now w).1)
  /\ logItems (render origin now w).1
     = if showLogs (ui w) then Some (the_logs w) else None.
Proof.
  intros Hreach.
  pose proof (reachable_NoDup rnd URL origin w Hreach) as Hnd.
  assert (Hkeys : forall c (l : list ShortUrl),
             key <$> (row origin now c <$> l) = shortCode <$> l).
  { intros c l. rewrite <- list_fmap_compose. reflexivity. }
  destruct (getLogs_fresh (logStore w)) as [Hr Hnone].
  unfold render. destruct (showLogs (ui w)).
  - unfold getLogs in *. cbn [fst snd ui rows logItems] in *.
    unfold the_logs. cbn [logStore]. rewrite Hkeys.
    set (r := fresh ({[ logs ]} ∪ dom (logStore w))) in *.
    assert (H1 : deref (<[ r := deref (logStore w) logs ]> (logStore w)) logs
                 = deref (logStore w) logs).
    { unfold deref at 1. rewrite lookup_insert_ne by exact Hr. reflexivity. }
    assert (H2 : deref (<[ r := deref (logStore w) logs ]> (logStore w)) r
                 = deref (logStore w) logs).
    { unfold deref at 1. rewrite lookup_insert_eq. reflexivity. }
    rewrite H1, H2. auto.
  - cbn [fst snd rows logItems]. rewrite Hkeys. auto.
Qed.

End Shown.

Lemma result_panel_stays_witness :
  exists w',
    run a_a_then_b sample_URL sample_origin a_session initial = Some w'
    /\ resultPanel (render sample_origin 5000 w').1 = redirectResult (ui w')
    /\ is_Some (resultPanel (render sample_origin 5000 w').1).
Proof.
  assert (Hrun : exists w',
             run a_a_then_b sample_URL sample_origin a_session initial
             = Some w').
  { eexists. vm_compute. reflexivity. }
  destruct Hrun as (w' & Hrun). exists w'. split; [exact Hrun |].
  destruct (result_panel_stays a_a_then_b sample_URL sample_origin
              a_session initial w' 0 5000) as [Heq Hshown].
  - exists []. reflexivity.
  - exact Hrun.
  - split; [exact Heq |]. apply Hshown. right.
    exists 3000, iso1. unfold a_session.
    apply elem_of_app. right. repeat constructor.
Defined.

Lemma render_is_a_view_witness :
  exists w,
    run a_a_then_b sample_URL sample_origin a_session initial = Some w
    /\ key <$> rows (render sample_origin 5000 w).1 = [bbbbbb; aaaaaa]
    /\ NoDup (key <$> rows (render sample_origin 5000 w).1)
    /\ the_logs (render sample_origin 5000 w).2 = the_logs w.
Proof.
  assert (Hrun : exists w,
             run a_a_then_b sample_URL sample_origin a_session initial = Some w
             /\ codes w = [bbbbbb; aaaaaa]).
  { eexists. split; [vm_compute; reflexivity | reflexivity]. }
  destruct Hrun as (w & Hrun & Hcodes). exists w. split; [exact Hrun |].
  destruct (render_is_a_view a_a_then_b sample_URL sample_origin 5000 w)
    as (_ & Hlogs & Hkeys & Hnd & _); [exists a_session; exact Hrun |].
  split; [congruence |]. split; [exact Hnd | exact Hlogs].
Defined.

(** ** Termination of the generator *)






